(** * Skin-disease diagnosis: verification of the upload, metadata, API-client
      and triage logic

    The browser-side code (ImageUpload.tsx, PatientMetadata.tsx, page.tsx,
    lib/types.ts, lib/api.ts, ReportDownload.tsx) is embedded function by
    function.  The Python back end ships no source; the triage classifier
    modelled in [Core] follows the design document and is marked as
    such. *)

From Stdlib Require Import ZArith NArith QArith Bool List String Ascii Lia.
From Stdlib Require Import DecimalString Qround Qpower Lqa.
From Stdlib Require Import DecimalPos Sorted Permutation.
From Equations Require Import Equations.
Import ListNotations.

Local Close Scope Q_scope.
Local Open Scope string_scope.

(** ** JavaScript values shared by the components *)

(** A JavaScript [Error]: only the fields the code inspects. *)
Record Error := mkError { name : string; message : string }.

(** [new Error(msg)] *)
Definition newError (msg : string) : Error :=
  {| name := "Error"; message := msg |}.

(** A settled promise. *)
Inductive Settled (A : Type) : Type :=
| Resolve (a : A)
| Reject (e : Error).
Arguments Resolve {A} a.
Arguments Reject {A} e.

(** A promise as the code awaits it: it settles, or it never does. *)
Inductive Promise (A : Type) : Type :=
| Settles (s : Settled A)
| Pending.
Arguments Settles {A} s.
Arguments Pending {A}.

(** [s.startsWith(p)] *)
Definition startsWith (s p : string) : bool := String.prefix p s.

(** [s.includes(p)] *)
Fixpoint includes (s p : string) : bool :=
  if String.prefix p s then true
  else match s with
       | EmptyString => false
       | String _ s' => includes s' p
       end.

(** [n.toString()] for an integer. *)
Definition toString (n : Z) : string := NilZero.string_of_int (Z.to_int n).

(** [a || b] on strings, [None] standing for [undefined]: the empty string
    is falsy. *)
Definition orElse (a : option string) (b : string) : string :=
  match a with
  | Some s => if s =? "" then b else s
  | None => b
  end.

(** A [File] as the upload code sees it: MIME type, size in bytes, and the
    picture the browser's [Image] element decodes from it ([None] when
    [img.onerror] fires, [Some (width, height)] when [img.onload] fires). *)
Record File := mkFile {
  file_name : string;
  type : string;
  size : N;
  image : option (N * N)
}.

(** ** components/ImageUpload.tsx *)
Module ImageUpload.

Definition LOW_RESOLUTION_MESSAGE : string :=
  "Image resolution too low. Minimum required: 100x100 pixels.".
Definition CORRUPTED_MESSAGE : string :=
  "Image appears to be corrupted or invalid.".
Definition LOAD_ERROR_MESSAGE : string :=
  "Invalid or corrupted image file.".

(** [validateImageQuality]: the promise settled by [img.onload] or
    [img.onerror]. *)
Definition validateImageQuality (file : File) : Settled bool :=
  match image file with
  | Some (width, height) =>
      if ((width <? 100) || (height <? 100))%N then
        Reject (newError LOW_RESOLUTION_MESSAGE)
      else if ((width <? 50) || (height <? 50))%N then
        Reject (newError CORRUPTED_MESSAGE)
      else Resolve true
  | None => Reject (newError LOAD_ERROR_MESSAGE)
  end.

(** Component state ([useState] cells). *)
Record UploadState := mkUploadState {
  isDragging : bool;
  preview : option string;
  uploadProgress : N
}.

Definition setUploadProgress (p : N) (st : UploadState) : UploadState :=
  {| isDragging := isDragging st; preview := preview st; uploadProgress := p |}.

Definition setPreview (p : option string) (st : UploadState) : UploadState :=
  {| isDragging := isDragging st; preview := p;
     uploadProgress := uploadProgress st |}.

(** What [handleFile] does to the world outside the component. *)
Inductive Effect :=
| Alert (msg : string)
| ReadAsDataURL (file : File)
| OnImageSelect (file : option File).

Definition MAX_FILE_SIZE : N := 10 * 1024 * 1024.

(** [handleFile]: the state after the handler ran and the effects it
    issued, in order. *)
Definition handleFile (file : File) (st : UploadState)
  : UploadState * list Effect :=
  let st := setUploadProgress 0 st in
  if negb (startsWith (type file) "image/") then
    (st, [Alert "Please upload an image file (JPEG, PNG)"])
  else if (MAX_FILE_SIZE <? size file)%N then
    (st, [Alert "File size must be less than 10MB"])
  else
    let st := setUploadProgress 50 st in
    match validateImageQuality file with
    | Reject error => (setUploadProgress 0 st, [Alert (message error)])
    | Resolve _ =>
        let st := setUploadProgress 100 st in
        (st, [ReadAsDataURL file; OnImageSelect (Some file)])
    end.

(** [reader.onload] of the preview reader started by [handleFile]. *)
Definition readerOnload (result : string) (st : UploadState) : UploadState :=
  setUploadProgress 0 (setPreview (Some result) st).

(** [clearImage] *)
Definition clearImage (st : UploadState) : UploadState * list Effect :=
  (setPreview None st, [OnImageSelect None]).

(** The parent's [handleImageSelect] is the [onImageSelect] callback: it
    overwrites the selected image. *)
Definition deliver (selectedImage : option File) (e : Effect) : option File :=
  match e with
  | OnImageSelect f => f
  | _ => selectedImage
  end.

Definition selectedAfter (selectedImage : option File) (es : list Effect)
  : option File :=
  fold_left deliver es selectedImage.

Definition callsOnImageSelect (e : Effect) : bool :=
  match e with OnImageSelect _ => true | _ => false end.

End ImageUpload.

(** ** lib/types.ts *)
Module Types.

Definition LESION_LOCATIONS : list string :=
  [ "Face"; "Chest"; "Back"; "Arms"; "Legs";
    "Hands"; "Feet"; "Scalp"; "Neck"; "Other" ].

End Types.

(** ** components/PatientMetadata.tsx *)
Module PatientMetadata.

(** White space skipped by [parseInt] (the code units below 256 of the
    language's WhiteSpace and LineTerminator sets). *)
Definition isStrWhiteSpaceChar (c : ascii) : bool :=
  let n := N_of_ascii c in
  ((n =? 9) || (n =? 10) || (n =? 11) || (n =? 12) || (n =? 13)
   || (n =? 32) || (n =? 160))%N.

Fixpoint trimStart (s : string) : string :=
  match s with
  | String c s' => if isStrWhiteSpaceChar c then trimStart s' else s
  | EmptyString => EmptyString
  end.

(** Value of a code unit as a digit: 0-9, then a-z and A-Z for 10-35. *)
Definition digitValue (c : ascii) : option N :=
  let n := N_of_ascii c in
  if ((48 <=? n) && (n <=? 57))%N then Some (n - 48)%N
  else if ((97 <=? n) && (n <=? 122))%N then Some (n - 87)%N
  else if ((65 <=? n) && (n <=? 90))%N then Some (n - 55)%N
  else None.

(** The longest prefix of radix-[R] digits, read as a number; [acc] is
    [None] until a digit has been read. *)
Fixpoint radixDigits (R : N) (s : string) (acc : option N) : option N :=
  match s with
  | String c s' =>
      match digitValue c with
      | Some d =>
          if (d <? R)%N
          then radixDigits R s'
                 (Some (R * match acc with Some a => a | None => 0 end + d)%N)
          else acc
      | None => acc
      end
  | EmptyString => acc
  end.

(** [parseInt(string)] with no radix argument; [None] is NaN.  The result
    is the integer the digits denote.  The builtin returns the Number
    nearest to it, which differs beyond 2^53; that rounding is left out:
    it is monotone and keeps 0 and 150, so it never moves a value across
    the bounds the handler tests.  -0 is 0. *)
Definition parseInt (string : string) : option Z :=
  let inputS := trimStart string in
  let '(sign, unsignedS) :=
    match inputS with
    | String "-"%char r => ((-1)%Z, r)
    | String "+"%char r => (1%Z, r)
    | _ => (1%Z, inputS)
    end in
  let '(R, digitsS) :=
    match unsignedS with
    | String "0"%char (String "x"%char r) => (16%N, r)
    | String "0"%char (String "X"%char r) => (16%N, r)
    | _ => (10%N, unsignedS)
    end in
  match radixDigits R digitsS None with
  | Some mathInt => Some (sign * Z.of_N mathInt)%Z
  | None => None
  end.

(** [handleAgeChange]: the call of [onAgeChange] it makes, if any
    ([Some None] is [onAgeChange(null)]). *)
Definition handleAgeChange (value : string) : option (option Z) :=
  if value =? "" then Some None
  else
    match parseInt value with
    | Some numValue =>
        if ((numValue >=? 0) && (numValue <=? 150))%Z
        then Some (Some numValue)
        else None
    | None => None
    end.

(** The parent passes [setAge] as [onAgeChange]: the stored age after the
    handler ran. *)
Definition storedAge (age : option Z) (call : option (option Z)) : option Z :=
  match call with
  | Some a => a
  | None => age
  end.

(** The [value] attributes of the lesion-location [<select>]: the
    placeholder option, then one option per [LESION_LOCATIONS] entry. *)
Definition locationOptions : list string := "" :: Types.LESION_LOCATIONS.

(** [e.target.value] of a change event on the [<select>] when its
    [choice]-th option is picked; the select's [onChange] passes it to
    [onLesionLocationChange] as it is. *)
Definition selectedValue (choice : nat) : string :=
  nth choice locationOptions "".

(** An age entry that is an integer numeral: an optional minus sign and
    decimal digits only. *)
Definition isDecimalDigit (c : ascii) : bool :=
  let n := N_of_ascii c in ((48 <=? n) && (n <=? 57))%N.

Fixpoint allDigits (s : string) : bool :=
  match s with
  | String c s' => isDecimalDigit c && allDigits s'
  | EmptyString => true
  end.

Definition isIntegerEntry (s : string) : bool :=
  match s with
  | String "-"%char (String c r) => allDigits (String c r)
  | String c r => allDigits (String c r)
  | EmptyString => false
  end.

End PatientMetadata.

(** ** lib/api.ts *)
Module Api.

Definition API_TIMEOUT : N := 60000.
Definition MAX_RETRIES : nat := 2.

(** The multipart form [predictDisease] builds. *)
Record FormData := mkFormData {
  form_file : File;
  form_age : option string;
  form_lesion_location : option string
}.

(** What the client does to the outside: a POST to [/predict] made by the
    invocation with the given [retryCount], and a back-off wait. *)
Inductive Event :=
| Fetch (retryCount : nat) (body : FormData)
| Sleep (ms : N).

Definition isFetch (e : Event) : bool :=
  match e with Fetch _ _ => true | Sleep _ => false end.

(** Number of requests in a trace. *)
Definition requests (evs : list Event) : nat :=
  List.length (filter isFetch evs).

Definition TIMEOUT_MESSAGE : string :=
  "Request timeout - the server took too long to respond. Please try again.".

(** The test of the [catch] block on [error.message]. *)
Definition shouldRetry (msg : string) : bool :=
  includes msg "network" || includes msg "fetch" || includes msg "timeout".

(** The [TypeError] thrown when [error.detail] is read from a body that
    parsed to null.  The text is the one of V8; the texts of the other
    engines differ. *)
Definition NULL_DETAIL_ERROR : Error :=
  {| name := "TypeError";
     message := "Cannot read properties of null (reading 'detail')" |}.

(** [1000 * Math.pow(2, retryCount)] *)
Definition backoff (retryCount : nat) : N := 1000 * 2 ^ N.of_nat retryCount.

Section Client.

(** Parsed JSON values other than null, and [detail j]: the string
    [new Error(j.detail)] carries, [None] when [j.detail] is falsy (absent,
    null, empty). *)
Context {Json : Type}.
Variable detail : Json -> option string.

(** A [Response]: the status and the promise of [response.json()].  The
    abort timer is cleared once the headers have arrived, so reading the
    body may never settle; a body that parses to null is [None]. *)
Record Response := mkResponse {
  status : N;
  json : Promise (option Json)
}.

(** [response.ok] *)
Definition ok (response : Response) : bool :=
  ((200 <=? status response) && (status response <=? 299))%N.

(** The network and server: how the browser's [fetch] settles for the
    request made by the invocation with a given [retryCount]; a timer abort
    is a rejection named [AbortError]. *)
Variable fetch : nat -> FormData -> Settled Response.

(** [fetchWithTimeout] *)
Definition fetchWithTimeout (retryCount : nat) (body : FormData)
  : Settled Response :=
  match fetch retryCount body with
  | Resolve response => Resolve response
  | Reject error =>
      if name error =? "AbortError" then Reject (newError TIMEOUT_MESSAGE)
      else Reject error
  end.

(** How the [try] block of [predictDisease] completes: it returns the
    promise of [response.json()] (not awaited, so out of reach of the
    [catch]), throws into the [catch], or stays at
    [await response.json()] for ever. *)
Inductive Completion :=
| Returned (p : Promise (option Json))
| Thrown (e : Error)
| Stuck.

(** [error.detail || fallback] for the body read at line 61: the object
    [{detail: 'Unknown error'}] when parsing failed; reading [detail] from
    null throws. *)
Definition detailOr (body : Settled (option Json)) (fallback : string)
  : Error + string :=
  match body with
  | Resolve (Some j) => inr (orElse (detail j) fallback)
  | Resolve None => inl NULL_DETAIL_ERROR
  | Reject _ => inr (orElse (Some "Unknown error") fallback)
  end.

Definition throwMessage (m : Error + string) : Completion :=
  match m with
  | inl e => Thrown e
  | inr msg => Thrown (newError msg)
  end.

Definition tryBlock (retryCount : nat) (formData : FormData) : Completion :=
  match fetchWithTimeout retryCount formData with
  | Reject error => Thrown error
  | Resolve response =>
      if negb (ok response) then
        match json response with
        | Pending => Stuck
        | Settles error =>
            if (status response =? 413)%N then
              Thrown (newError "File too large. Maximum size is 10MB.")
            else if (status response =? 400)%N then
              throwMessage (detailOr error
                "Invalid image file. Please upload a clear JPEG or PNG image.")
            else if (status response =? 429)%N then
              Thrown (newError
                "Too many requests. Please wait a moment and try again.")
            else
              throwMessage (detailOr error
                "Prediction failed. Please try again.")
        end
      else Returned (json response)
  end.

Definition buildFormData (file : File) (age : option Z)
  (lesionLocation : option string) : FormData :=
  {| form_file := file;
     form_age := option_map toString age;
     form_lesion_location :=
       match lesionLocation with
       | Some l => if l =? "" then None else Some l
       | None => None
       end |}.

Definition after (evs : list Event)
  (r : Promise (option Json) * list Event)
  : Promise (option Json) * list Event :=
  (fst r, (evs ++ snd r)%list).

(** [predictDisease]: the returned promise, and the trace of requests and
    waits. *)
Equations? predictDisease (file : File) (age : option Z)
  (lesionLocation : option string) (retryCount : nat)
  : Promise (option Json) * list Event by wf (MAX_RETRIES - retryCount) lt :=
predictDisease file age lesionLocation retryCount
  with tryBlock retryCount (buildFormData file age lesionLocation) => {
  | Returned p :=
      (p, [Fetch retryCount (buildFormData file age lesionLocation)]);
  | Thrown error with lt_dec retryCount MAX_RETRIES => {
    | left Hlt with shouldRetry (message error) => {
      | true :=
          after [Fetch retryCount (buildFormData file age lesionLocation);
                 Sleep (backoff retryCount)]
            (predictDisease file age lesionLocation (S retryCount));
      | false :=
          (Settles (Reject error),
           [Fetch retryCount (buildFormData file age lesionLocation)]) };
    | right _ :=
        (Settles (Reject error),
         [Fetch retryCount (buildFormData file age lesionLocation)]) };
  | Stuck :=
      (Pending, [Fetch retryCount (buildFormData file age lesionLocation)]) }.
Proof. unfold MAX_RETRIES in Hlt. do 2 (destruct retryCount; [lia |]). lia. Qed.

End Client.

End Api.
(** ** app/page.tsx *)
Module Home.

Section Page.

Context {Json : Type}.
Variable detail : Json -> option string.
Variable fetch : nat -> Api.FormData -> Settled (@Api.Response Json).

(** The [useState] cells of the page. *)
Record State := mkState {
  selectedImage : option File;
  imagePreview : option string;
  age : option Z;
  lesionLocation : string;
  isLoading : bool;
  prediction : option Json;
  error : option string
}.

Definition initial : State :=
  {| selectedImage := None; imagePreview := None; age := None;
     lesionLocation := ""; isLoading := false; prediction := None;
     error := None |}.

Definition setSelectedImage (v : option File) (st : State) : State :=
  mkState v (imagePreview st) (age st) (lesionLocation st) (isLoading st)
    (prediction st) (error st).

Definition setImagePreview (v : option string) (st : State) : State :=
  mkState (selectedImage st) v (age st) (lesionLocation st) (isLoading st)
    (prediction st) (error st).

Definition setAge (v : option Z) (st : State) : State :=
  mkState (selectedImage st) (imagePreview st) v (lesionLocation st)
    (isLoading st) (prediction st) (error st).

Definition setLesionLocation (v : string) (st : State) : State :=
  mkState (selectedImage st) (imagePreview st) (age st) v (isLoading st)
    (prediction st) (error st).

Definition setIsLoading (v : bool) (st : State) : State :=
  mkState (selectedImage st) (imagePreview st) (age st) (lesionLocation st) v
    (prediction st) (error st).

Definition setPrediction (v : option Json) (st : State) : State :=
  mkState (selectedImage st) (imagePreview st) (age st) (lesionLocation st)
    (isLoading st) v (error st).

Definition setError (v : option string) (st : State) : State :=
  mkState (selectedImage st) (imagePreview st) (age st) (lesionLocation st)
    (isLoading st) (prediction st) v.

(** [handleImageSelect]; for a file the preview arrives later, through
    [previewLoaded]. *)
Definition handleImageSelect (file : option File) (st : State) : State :=
  let st := setSelectedImage file st in
  match file with
  | Some _ => st
  | None => setImagePreview None st
  end.

Definition previewLoaded (result : string) (st : State) : State :=
  setImagePreview (Some result) st.

(** [handlePredict], run as far as it gets: until the promise of
    [predictDisease] has settled and the [finally] block is done, or, when
    that promise never settles, up to the [await].  The state reached and
    the client's trace; a body that parsed to null is [setPrediction(null)]. *)
Definition handlePredict (st : State) : State * list Api.Event :=
  match selectedImage st with
  | None => (setError (Some "Please upload an image first") st, [])
  | Some image =>
      if lesionLocation st =? "" then
        (setError (Some "Please select a lesion location") st, [])
      else
        let st := setPrediction None (setError None (setIsLoading true st)) in
        let '(result, evs) :=
          Api.predictDisease detail fetch image (age st)
            (Some (lesionLocation st)) 0 in
        match result with
        | Settles (Resolve r) =>
            (setIsLoading false (setPrediction r st), evs)
        | Settles (Reject err) =>
            (setIsLoading false
               (setError
                  (Some (orElse (Some (message err))
                           "An error occurred during prediction")) st), evs)
        | Pending => (st, evs)
        end
  end.

(** [handleReset] *)
Definition handleReset (st : State) : State :=
  setError None (setPrediction None (setLesionLocation ""
    (setAge None (setImagePreview None (setSelectedImage None st))))).

(** What can happen to the page: the callbacks it hands to its children
    and its own buttons. *)
Inductive UserEvent :=
| ImageSelected (file : option File)
| PreviewLoaded (result : string)
| AgeTyped (value : string)
| LocationPicked (choice : nat)
| PredictClicked
| ResetClicked.

Definition step (st : State) (ev : UserEvent) : State * list Api.Event :=
  match ev with
  | ImageSelected file => (handleImageSelect file st, [])
  | PreviewLoaded result => (previewLoaded result st, [])
  | AgeTyped value =>
      (setAge (PatientMetadata.storedAge (age st)
                 (PatientMetadata.handleAgeChange value)) st, [])
  | LocationPicked choice =>
      (setLesionLocation (PatientMetadata.selectedValue choice) st, [])
  | PredictClicked => handlePredict st
  | ResetClicked => (handleReset st, [])
  end.

(** A session: the events in order, from a state; the final state and
    everything the client sent. *)
Fixpoint session (st : State) (evs : list UserEvent) : State * list Api.Event :=
  match evs with
  | [] => (st, [])
  | ev :: evs' =>
      let '(st1, out1) := step st ev in
      let '(st2, out2) := session st1 evs' in
      (st2, (out1 ++ out2)%list)
  end.

End Page.

End Home.

(** ** The triage classifier (Python back end)

    The back end is not among the sources; every definition of this
    module is modelled from the design document.  Probabilities are exact
    rationals. *)
Module Core.

Local Open Scope Q_scope.

(** Modelled from the spec: the fixed, closed class set of the inference
    engine, in canonical order. *)
Inductive ClassName := Acne | CherryAngioma | Melanoma | Psoriasis.

Definition CLASS_NAMES : list ClassName :=
  [Acne; CherryAngioma; Melanoma; Psoriasis].

Definition className (c : ClassName) : string :=
  match c with
  | Acne => "Acne"
  | CherryAngioma => "Cherry Angioma"
  | Melanoma => "Melanoma"
  | Psoriasis => "Psoriasis"
  end.

(** Modelled from the spec: [ProbabilityVector], one probability per class
    of the closed set. *)
Record ProbabilityVector := mkVector {
  acne : Q;
  cherry_angioma : Q;
  melanoma : Q;
  psoriasis : Q
}.

Definition prob (pv : ProbabilityVector) (c : ClassName) : Q :=
  match c with
  | Acne => acne pv
  | CherryAngioma => cherry_angioma pv
  | Melanoma => melanoma pv
  | Psoriasis => psoriasis pv
  end.

Definition total (pv : ProbabilityVector) : Q :=
  acne pv + cherry_angioma pv + melanoma pv + psoriasis pv.

(** Modelled from the spec: predicted class = argmax of the distribution,
    ties broken by the canonical order (the first class wins). *)
Definition better (pv : ProbabilityVector) (best c : ClassName) : ClassName :=
  if Qle_bool (prob pv c) (prob pv best) then best else c.

Definition predicted_class (pv : ProbabilityVector) : ClassName :=
  fold_left (better pv) [CherryAngioma; Melanoma; Psoriasis] Acne.

(** Modelled from the spec: confidence, the maximum value of the
    distribution ([max(probabilityVector)] in the triage rules). *)
Definition confidence (pv : ProbabilityVector) : Q :=
  prob pv (predicted_class pv).

(** Modelled from the spec: the triage levels and their order
    LOW < MEDIUM < HIGH < CRITICAL. *)
Inductive TriageLevel := LOW | MEDIUM | HIGH | CRITICAL.

Definition severity (l : TriageLevel) : nat :=
  match l with
  | LOW => 0
  | MEDIUM => 1
  | HIGH => 2
  | CRITICAL => 3
  end.

(** Modelled from the spec: the thresholds of the triage rules. *)
Definition CRITICAL_THRESHOLD : Q := 50 # 100.
Definition HIGH_THRESHOLD : Q := 30 # 100.
Definition CONFIDENCE_THRESHOLD : Q := 70 # 100.

(** Modelled from the spec: the rules of TriageClassifier.classify, in
    their fixed first-match order. *)
Definition triage_level (pv : ProbabilityVector) : TriageLevel :=
  if Qle_bool CRITICAL_THRESHOLD (melanoma pv) then CRITICAL
  else if Qle_bool HIGH_THRESHOLD (melanoma pv) then HIGH
  else if Qle_bool CONFIDENCE_THRESHOLD (confidence pv) then MEDIUM
  else LOW.

(** Modelled from the spec: [TriageAssessment]. *)
Record TriageAssessment := mkTriage {
  level : TriageLevel;
  triage_message : string;
  requires_immediate_attention : bool;
  melanoma_probability : Q
}.

(** Modelled from the spec: a synthetic distribution of the monotonicity
    sweep: melanoma probability [m], the other classes sharing [1 - m] in
    the fixed proportions [ra : rc : rp]. *)
Definition sweep (ra rc rp m : Q) : ProbabilityVector :=
  {| acne := (1 - m) * ra;
     cherry_angioma := (1 - m) * rc;
     melanoma := m;
     psoriasis := (1 - m) * rp |}.

(** A rendering of the per-level message, used to run [classify] on
    concrete vectors. *)
Definition sample_message (l : TriageLevel) (m : Q) : string :=
  (match l with
   | CRITICAL => "CRITICAL: melanoma "
   | HIGH => "HIGH: melanoma "
   | MEDIUM => "MEDIUM: melanoma "
   | LOW => "LOW: melanoma "
   end ++ toString (Qfloor (m * 100)) ++ "%")%string.

Section Triage.

(** The design leaves the message templates open: [message_of] renders
    the message of a level with the melanoma probability. *)
Variable message_of : TriageLevel -> Q -> string.

(** Modelled from the spec: TriageClassifier.classify, a function of the
    probability vector alone. *)
Definition classify (pv : ProbabilityVector) : TriageAssessment :=
  let l := triage_level pv in
  {| level := l;
     triage_message := message_of l (melanoma pv);
     requires_immediate_attention :=
       match l with
       | CRITICAL | HIGH => true
       | MEDIUM | LOW => false
       end;
     melanoma_probability := melanoma pv |}.

End Triage.

End Core.

(** ** Concrete files, servers and sessions *)
Module Samples.

Definition png (width height : N) (bytes : N) : File :=
  {| file_name := "lesion.png"; type := "image/png"; size := bytes;
     image := Some (width, height) |}.

Definition tiny_file : File := png 40 40 2048.
Definition small_file : File := png 99 99 4096.
Definition good_file : File := png 100 100 4096.

(** Bodies are the [detail] they carry, if any. *)
Definition detail_of (j : option string) : option string := j.

Definition answer (code : N) (detail : option string)
  : Settled (@Api.Response (option string)) :=
  Resolve (Api.mkResponse code (Settles (Resolve (Some detail)))).

(** A server that answers every request with 400 and a detail of its
    own. *)
Definition slow_decoder (retryCount : nat) (body : Api.FormData)
  : Settled (@Api.Response (option string)) :=
  answer 400 (Some "Image decode timeout").

(** A server that answers every request with 413. *)
Definition strict_server (retryCount : nat) (body : Api.FormData)
  : Settled (@Api.Response (option string)) :=
  answer 413 None.

(** No connection: every [fetch] rejects as browsers do. *)
Definition offline (retryCount : nat) (body : Api.FormData)
  : Settled (@Api.Response (option string)) :=
  Reject {| name := "TypeError"; message := "Failed to fetch" |}.

(** A server that answers every request with 200 and a body. *)
Definition healthy (retryCount : nat) (body : Api.FormData)
  : Settled (@Api.Response (option string)) :=
  answer 200 None.

(** The page with an image chosen and no lesion location. *)
Definition image_only : @Home.State (option string) :=
  Home.handleImageSelect (Some good_file) Home.initial.

End Samples.

(** ** components/ImageUpload.tsx: the drop zone, the file input and the
       progress indicator *)
Module UploadHandlers.

Import ImageUpload.

Definition setIsDragging (d : bool) (st : UploadState) : UploadState :=
  {| isDragging := d; preview := preview st;
     uploadProgress := uploadProgress st |}.

(** [handleDragOver] and [handleDragLeave] *)
Definition handleDragOver (st : UploadState) : UploadState :=
  setIsDragging true st.

Definition handleDragLeave (st : UploadState) : UploadState :=
  setIsDragging false st.

(** [handleDrop], on [e.dataTransfer.files]. *)
Definition handleDrop (files : list File) (st : UploadState)
  : UploadState * list Effect :=
  let st := setIsDragging false st in
  match files with
  | file :: _ => handleFile file st
  | [] => (st, [])
  end.

(** [handleFileInput], on [e.target.files] ([None] is null). *)
Definition handleFileInput (files : option (list File)) (st : UploadState)
  : UploadState * list Effect :=
  match files with
  | Some (file :: _) => handleFile file st
  | _ => (st, [])
  end.

(** Whether the progress indicator is rendered: the drop zone is shown
    ([!preview]) and [uploadProgress > 0 && uploadProgress < 100]. *)
Definition progressShown (st : UploadState) : bool :=
  match preview st with
  | None => ((0 <? uploadProgress st) && (uploadProgress st <? 100))%N
  | Some _ => false
  end.

(** The three checks of [handleFile], as one test. *)
Definition acceptable (file : File) : bool :=
  startsWith (type file) "image/" &&
  (size file <=? MAX_FILE_SIZE)%N &&
  match image file with
  | Some (width, height) => ((100 <=? width) && (100 <=? height))%N
  | None => false
  end.

(** What can happen to the component. *)
Inductive UploadEvent :=
| DragOver
| DragLeave
| Drop (files : list File)
| FileInput (files : option (list File))
| ReaderLoaded (result : string)
| Clear.

Definition uploadStep (st : UploadState) (ev : UploadEvent)
  : UploadState * list Effect :=
  match ev with
  | DragOver => (handleDragOver st, [])
  | DragLeave => (handleDragLeave st, [])
  | Drop files => handleDrop files st
  | FileInput files => handleFileInput files st
  | ReaderLoaded result => (readerOnload result st, [])
  | Clear => clearImage st
  end.

End UploadHandlers.

(** ** lib/api.ts: the shape of a trace *)
Module ApiTrace.

Import Api.

(** The trace of an invocation that starts at [retryCount] and retries
    [retries] times: each request but the last is followed by its wait. *)
Fixpoint schedule (form : FormData) (retryCount retries : nat) : list Event :=
  match retries with
  | 0 => [Fetch retryCount form]
  | S k =>
      Fetch retryCount form :: Sleep (backoff retryCount)
        :: schedule form (S retryCount) k
  end.

(** Milliseconds spent waiting in a trace. *)
Fixpoint waited (evs : list Event) : N :=
  match evs with
  | [] => 0
  | Sleep ms :: evs' => ms + waited evs'
  | Fetch _ _ :: evs' => waited evs'
  end.

(** The promise of the call when an attempt is not retried. *)
Definition settle {Json : Type} (c : @Completion Json)
  : Promise (option Json) :=
  match c with
  | Returned p => p
  | Thrown e => Settles (Reject e)
  | Stuck => Pending
  end.

(** Whether the [catch] block retries after a completion of the [try]
    block, retries permitting. *)
Definition retryable {Json : Type} (c : @Completion Json) : bool :=
  match c with
  | Returned _ => false
  | Thrown e => shouldRetry (message e)
  | Stuck => false
  end.

End ApiTrace.

(** ** The report generator (components/ReportDownload.tsx) and the
       probability list of components/ClinicalDetails.tsx *)
Module Report.

(** The age line: [patientAge ? `${patientAge} years` : 'Not provided']. *)
Definition ageLine (patientAge : option Z) : string :=
  "Age: " ++
  match patientAge with
  | Some a => if (a =? 0)%Z then "Not provided" else toString a ++ " years"
  | None => "Not provided"
  end.

(** The location line: [lesionLocation || 'Not provided']. *)
Definition locationLine (lesionLocation : option string) : string :=
  "Lesion Location: " ++ orElse lesionLocation "Not provided".

(** The levels of [TriageInfo] in lib/types.ts. *)
Definition TRIAGE_LEVELS : list string := ["CRITICAL"; "HIGH"; "MEDIUM"; "LOW"].

Definition triageColors : list (string * (N * N * N)) :=
  [ ("CRITICAL", (220, 38, 38)%N);
    ("HIGH", (245, 158, 11)%N);
    ("MODERATE", (59, 130, 246)%N) ].

(** [triageColors[level] || [100, 100, 100]], for a level of
    [TRIAGE_LEVELS]. *)
Definition triageColor (level : string) : N * N * N :=
  match find (fun kv => fst kv =? level) triageColors with
  | Some kv => snd kv
  | None => (100, 100, 100)%N
  end.

(** [Object.entries(class_probabilities).sort(([, a], [, b]) => b - a)]:
    the entries in the order of the object, sorted by a stable sort with
    the larger probability first.  Probabilities are rationals (the sign
    of [b - a] is exact on finite numbers). *)
Fixpoint insertEntry (x : string * Q) (l : list (string * Q))
  : list (string * Q) :=
  match l with
  | [] => [x]
  | y :: l' =>
      if Qle_bool (snd y) (snd x) then x :: y :: l'
      else y :: insertEntry x l'
  end.

Definition sortedProbs (entries : list (string * Q)) : list (string * Q) :=
  fold_right insertEntry [] entries.

End Report.

(** ** The page with its upload component *)
Module App.

Import UploadHandlers.

Section App.

Context {Json : Type}.
Variable detail : Json -> option string.
Variable fetch : nat -> Api.FormData -> Settled (@Api.Response Json).

(** The [disabled] attribute of the Analyze button:
    [!selectedImage || !lesionLocation || isLoading]. *)
Definition predictDisabled (st : @Home.State Json) : bool :=
  match Home.selectedImage st with
  | None => true
  | Some _ => (Home.lesionLocation st =? "") || Home.isLoading st
  end.

(** What the page holds is fit to send: a selected file passed the three
    checks, the age is absent or within 0..150, and the location is one
    of the select's option values. *)
Definition fit (p : @Home.State Json) : Prop :=
  (forall file,
     Home.selectedImage p = Some file -> acceptable file = true) /\
  (forall a, Home.age p = Some a -> (0 <= a <= 150)%Z) /\
  In (Home.lesionLocation p) PatientMetadata.locationOptions.

Record AppState := mkApp {
  page : @Home.State Json;
  upload : ImageUpload.UploadState
}.

Definition start : AppState :=
  {| page := Home.initial;
     upload := ImageUpload.mkUploadState false None 0 |}.

(** What the user and the browser can do to the application: the page's
    [handleImageSelect] is reached only through the upload component. *)
Inductive AppEvent :=
| Upload (ev : UploadEvent)
| PagePreviewLoaded (result : string)
| AgeTyped (value : string)
| LocationPicked (choice : nat)
| PredictClicked
| ResetClicked.

Definition pageEvent (ev : AppEvent) : option Home.UserEvent :=
  match ev with
  | Upload _ => None
  | PagePreviewLoaded result => Some (Home.PreviewLoaded result)
  | AgeTyped value => Some (Home.AgeTyped value)
  | LocationPicked choice => Some (Home.LocationPicked choice)
  | PredictClicked => Some Home.PredictClicked
  | ResetClicked => Some Home.ResetClicked
  end.

(** The page's reaction to an effect of the upload component: only
    [onImageSelect] reaches it. *)
Definition notify (p : @Home.State Json) (e : ImageUpload.Effect)
  : @Home.State Json :=
  match e with
  | ImageUpload.OnImageSelect file => Home.handleImageSelect file p
  | _ => p
  end.

Definition step (st : AppState) (ev : AppEvent) : AppState * list Api.Event :=
  match ev with
  | Upload uev =>
      let '(u, effects) := uploadStep (upload st) uev in
      ({| page := fold_left notify effects (page st); upload := u |}, [])
  | _ =>
      match pageEvent ev with
      | Some pev =>
          let '(p, out) := Home.step detail fetch (page st) pev in
          ({| page := p; upload := upload st |}, out)
      | None => (st, [])
      end
  end.

Fixpoint session (st : AppState) (evs : list AppEvent)
  : AppState * list Api.Event :=
  match evs with
  | [] => (st, [])
  | ev :: evs' =>
      let '(st1, out1) := step st ev in
      let '(st2, out2) := session st1 evs' in
      (st2, (out1 ++ out2)%list)
  end.

End App.

End App.

(** ** More servers and entries *)
Module Scenarios.

(** The connection drops twice and then the server answers. *)
Definition flaky (retryCount : nat) (body : Api.FormData)
  : Settled (@Api.Response (option string)) :=
  if (retryCount <? 2)%nat
  then Reject {| name := "TypeError"; message := "Failed to fetch" |}
  else Samples.answer 200 None.

(** Every request runs into the timer. *)
Definition stalled (retryCount : nat) (body : Api.FormData)
  : Settled (@Api.Response (option string)) :=
  Reject {| name := "AbortError"; message := "The user aborted a request." |}.

(** A 200 answer whose body is not JSON. *)
Definition garbled (retryCount : nat) (body : Api.FormData)
  : Settled (@Api.Response (option string)) :=
  Resolve (Api.mkResponse 200
    (Settles (Reject {| name := "SyntaxError";
                        message := "Unexpected token < in JSON, fetch aborted" |}))).

(** The headers of a 413 arrive and the body never does. *)
Definition hanging (retryCount : nat) (body : Api.FormData)
  : Settled (@Api.Response (option string)) :=
  Resolve (Api.mkResponse 413 Pending).

(** A 200 answer whose body is the JSON value null. *)
Definition empty_handed (retryCount : nat) (body : Api.FormData)
  : Settled (@Api.Response (option string)) :=
  Resolve (Api.mkResponse 200 (Settles (Resolve None))).

(** Whether a string starts with a character that passes [test]. *)
Definition firstIs (test : ascii -> bool) (s : string) : bool :=
  match s with
  | String c _ => test c
  | EmptyString => false
  end.

(** The letter after a leading 0 that makes [parseInt] read hexadecimal. *)
Definition isHexMark (c : ascii) : bool :=
  let n := N_of_ascii c in ((n =? 120) || (n =? 88))%N.

End Scenarios.

(** * Properties *)

(** ** Upload validation (ImageUpload.tsx) *)
Section UploadFacts.

Import ImageUpload.

Lemma validateImageQuality_loaded (file : File) (width height : N) :
  image file = Some (width, height) ->
  validateImageQuality file =
    if ((width <? 100) || (height <? 100))%N
    then Reject (newError LOW_RESOLUTION_MESSAGE)
    else Resolve true.
Proof.
  intros Himg. unfold validateImageQuality. rewrite Himg.
  destruct (width <? 100)%N eqn:Hw; [reflexivity |].
  destruct (height <? 100)%N eqn:Hh; [reflexivity |].
  apply N.ltb_ge in Hw, Hh. cbn [orb].
  replace (width <? 50)%N with false by (symmetry; apply N.ltb_ge; lia).
  replace (height <? 50)%N with false by (symmetry; apply N.ltb_ge; lia).
  reflexivity.
Qed.

(** C5: an image narrower or lower than 100 pixels is rejected with an
    [Error], and an image of at least 100x100 pixels passes validation. *)
Theorem validateImageQuality_resolution (file : File) (width height : N) :
  image file = Some (width, height) ->
  ((width < 100 \/ height < 100)%N ->
     validateImageQuality file = Reject (newError LOW_RESOLUTION_MESSAGE)) /\
  ((100 <= width /\ 100 <= height)%N ->
     validateImageQuality file = Resolve true).
Proof.
  intros Himg. rewrite (validateImageQuality_loaded _ _ _ Himg). split.
  - intros [Hw | Hh].
    + apply N.ltb_lt in Hw. rewrite Hw. reflexivity.
    + apply N.ltb_lt in Hh. rewrite Hh, orb_true_r. reflexivity.
  - intros [Hw Hh]. apply N.ltb_ge in Hw, Hh. rewrite Hw, Hh. reflexivity.
Qed.

Lemma validateImageQuality_resolution_witness :
  validateImageQuality Samples.small_file
    = Reject (newError LOW_RESOLUTION_MESSAGE) /\
  validateImageQuality Samples.good_file = Resolve true.
Proof.
  split.
  - apply (validateImageQuality_resolution Samples.small_file 99 99);
      [reflexivity | left; reflexivity].
  - apply (validateImageQuality_resolution Samples.good_file 100 100);
      [reflexivity | split; discriminate].
Defined.

(** After passing validation a 100x100 image of accepted type and size
    proceeds: it is handed to [onImageSelect]. *)
Example handleFile_good_file (st : UploadState) :
  snd (handleFile Samples.good_file st)
    = [ReadAsDataURL Samples.good_file; OnImageSelect (Some Samples.good_file)].
Proof. reflexivity. Qed.

Example handleFile_small_file (st : UploadState) :
  snd (handleFile Samples.small_file st) = [Alert LOW_RESOLUTION_MESSAGE].
Proof. reflexivity. Qed.

(** C6: an image narrower or lower than 50 pixels is rejected with the
    low-resolution message: the test against 100 comes first, so the
    branch with the corrupted-image message is never taken. *)
Theorem validateImageQuality_below_50 (file : File) (width height : N) :
  image file = Some (width, height) ->
  (width < 50 \/ height < 50)%N ->
  validateImageQuality file = Reject (newError LOW_RESOLUTION_MESSAGE) /\
  validateImageQuality file <> Reject (newError CORRUPTED_MESSAGE).
Proof.
  intros Himg Hsmall.
  assert (H : validateImageQuality file
              = Reject (newError LOW_RESOLUTION_MESSAGE)).
  { rewrite (validateImageQuality_loaded _ _ _ Himg).
    replace ((width <? 100) || (height <? 100))%N with true; [reflexivity |].
    symmetry. apply orb_true_iff.
    destruct Hsmall; [left | right]; apply N.ltb_lt; lia. }
  rewrite H. split; [reflexivity | discriminate].
Qed.

Lemma validateImageQuality_below_50_witness :
  validateImageQuality Samples.tiny_file
    = Reject (newError LOW_RESOLUTION_MESSAGE) /\
  validateImageQuality Samples.tiny_file
    <> Reject (newError CORRUPTED_MESSAGE).
Proof.
  apply (validateImageQuality_below_50 Samples.tiny_file 40 40);
    [reflexivity | left; reflexivity].
Defined.

(** No file at all gets the corrupted-image message. *)
Lemma corrupted_message_unreachable (file : File) :
  validateImageQuality file <> Reject (newError CORRUPTED_MESSAGE).
Proof.
  destruct (image file) as [[w h] |] eqn:Himg.
  - rewrite (validateImageQuality_loaded _ _ _ Himg).
    destruct ((w <? 100) || (h <? 100))%N; discriminate.
  - unfold validateImageQuality. rewrite Himg. discriminate.
Qed.

Lemma selectedAfter_no_call (selected : option File) (es : list Effect) :
  forallb (fun e => negb (callsOnImageSelect e)) es = true ->
  selectedAfter selected es = selected.
Proof.
  unfold selectedAfter. revert selected.
  induction es as [| e es IH]; intros selected Hall; [reflexivity |].
  cbn in Hall. apply andb_prop in Hall as [He Hes].
  cbn. rewrite IH by exact Hes. destruct e; [reflexivity | reflexivity |].
  discriminate He.
Qed.

(** C9: on each rejection path of [handleFile] (not an image type, more
    than 10MB, failed quality validation) [onImageSelect] is not called
    and the selected image stays what it was. *)
Theorem handleFile_rejection_keeps_selection
  (file : File) (st : UploadState) (selected : option File) :
  startsWith (type file) "image/" = false \/
  (10 * 1024 * 1024 < size file)%N \/
  (exists e, validateImageQuality file = Reject e) ->
  forallb (fun e => negb (callsOnImageSelect e)) (snd (handleFile file st))
    = true /\
  selectedAfter selected (snd (handleFile file st)) = selected.
Proof.
  intros Hrej.
  assert (Hno : forallb (fun e => negb (callsOnImageSelect e))
                  (snd (handleFile file st)) = true).
  { unfold handleFile.
    destruct (startsWith (type file) "image/") eqn:Htype; cbn [negb];
      [| reflexivity].
    destruct (MAX_FILE_SIZE <? size file)%N eqn:Hsize; [reflexivity |].
    destruct (validateImageQuality file) as [b | e] eqn:Hq; [| reflexivity].
    destruct Hrej as [Ht | [Hs | [e He]]].
    - discriminate Ht.
    - apply N.ltb_ge in Hsize. unfold MAX_FILE_SIZE in Hsize. lia.
    - discriminate He. }
  split; [exact Hno | apply selectedAfter_no_call; exact Hno].
Qed.

Lemma handleFile_rejection_keeps_selection_witness :
  forallb (fun e => negb (callsOnImageSelect e))
    (snd (handleFile Samples.tiny_file (mkUploadState false None 0))) = true /\
  selectedAfter (Some Samples.good_file)
    (snd (handleFile Samples.tiny_file (mkUploadState false None 0)))
    = Some Samples.good_file.
Proof.
  apply handleFile_rejection_keeps_selection.
  right; right. eexists. reflexivity.
Defined.

(** The converse: a file that passes the three checks is selected. *)
Lemma handleFile_accepts (file : File) (st : UploadState) (selected : option File) :
  startsWith (type file) "image/" = true ->
  (size file <= 10 * 1024 * 1024)%N ->
  validateImageQuality file = Resolve true ->
  selectedAfter selected (snd (handleFile file st)) = Some file.
Proof.
  intros Htype Hsize Hq. unfold handleFile. rewrite Htype. cbn [negb].
  replace (MAX_FILE_SIZE <? size file)%N with false
    by (symmetry; apply N.ltb_ge; exact Hsize).
  rewrite Hq. reflexivity.
Qed.

End UploadFacts.

(** ** Patient age (PatientMetadata.tsx) *)
Section AgeFacts.

Import PatientMetadata.

Lemma storedAge_handleAgeChange (value : string) (age : option Z) :
  storedAge age (handleAgeChange value) =
    if value =? "" then None
    else match parseInt value with
         | Some n => if ((n >=? 0) && (n <=? 150))%Z then Some n else age
         | None => age
         end.
Proof.
  unfold handleAgeChange. destruct (value =? ""); [reflexivity |].
  destruct (parseInt value) as [n |]; [| reflexivity].
  destruct ((n >=? 0) && (n <=? 150))%Z; reflexivity.
Qed.

Lemma in_range_test (n : Z) :
  ((n >=? 0) && (n <=? 150))%Z = true <-> (0 <= n <= 150)%Z.
Proof.
  rewrite andb_true_iff, Z.geb_le, Z.leb_le. reflexivity.
Qed.

(** Every integer numeral from 0 to 150 is read back by the handler. *)
Lemma handleAgeChange_numerals :
  forallb
    (fun k =>
       match handleAgeChange (toString (Z.of_nat k)) with
       | Some (Some n) => (n =? Z.of_nat k)%Z
       | _ => false
       end) (seq 0 151) = true.
Proof. vm_compute. reflexivity. Qed.

Lemma handleAgeChange_toString (n : Z) :
  (0 <= n <= 150)%Z -> handleAgeChange (toString n) = Some (Some n).
Proof.
  intros Hn.
  pose proof handleAgeChange_numerals as Hall.
  rewrite forallb_forall in Hall.
  specialize (Hall (Z.to_nat n)).
  rewrite Z2Nat.id in Hall by lia.
  assert (Hin : In (Z.to_nat n) (seq 0 151)) by (apply in_seq; lia).
  specialize (Hall Hin).
  destruct (handleAgeChange (toString n)) as [[m |] |]; try discriminate.
  apply Z.eqb_eq in Hall. subst m. reflexivity.
Qed.

(** C8, as amended: the handler stores null for the empty entry, stores
    the integer that [parseInt] reads from the entry when it lies in
    [0,150] (every numeral 0..150 is such an entry), and leaves the stored
    age as it was when [parseInt] yields NaN or a value out of range;
    nothing is clamped. *)
Theorem handleAgeChange_stores_parsed_age (value : string) (age : option Z) :
  (value = "" -> storedAge age (handleAgeChange value) = None) /\
  (forall n, value <> "" -> parseInt value = Some n -> (0 <= n <= 150)%Z ->
     storedAge age (handleAgeChange value) = Some n) /\
  (forall n, (0 <= n <= 150)%Z ->
     storedAge age (handleAgeChange (toString n)) = Some n) /\
  (value <> "" -> parseInt value = None ->
     storedAge age (handleAgeChange value) = age) /\
  (forall n, value <> "" -> parseInt value = Some n -> (n < 0 \/ 150 < n)%Z ->
     storedAge age (handleAgeChange value) = age).
Proof.
  rewrite storedAge_handleAgeChange.
  split; [| split; [| split; [| split]]].
  - intros ->. reflexivity.
  - intros n Hne Hp Hn. apply String.eqb_neq in Hne. rewrite Hne, Hp.
    apply in_range_test in Hn. rewrite Hn. reflexivity.
  - intros n Hn. rewrite (handleAgeChange_toString n Hn). reflexivity.
  - intros Hne Hp. apply String.eqb_neq in Hne. rewrite Hne, Hp. reflexivity.
  - intros n Hne Hp Hn. apply String.eqb_neq in Hne. rewrite Hne, Hp.
    destruct ((n >=? 0) && (n <=? 150))%Z eqn:Ht; [| reflexivity].
    apply in_range_test in Ht. lia.
Qed.

Lemma handleAgeChange_stores_parsed_age_witness :
  storedAge (Some 30%Z) (handleAgeChange "") = None /\
  storedAge None (handleAgeChange "42") = Some 42%Z /\
  storedAge (Some 30%Z) (handleAgeChange "abc") = Some 30%Z /\
  storedAge (Some 30%Z) (handleAgeChange "151") = Some 30%Z.
Proof.
  split; [| split; [| split]].
  - apply (handleAgeChange_stores_parsed_age "" (Some 30%Z)). reflexivity.
  - apply (handleAgeChange_stores_parsed_age "42" None);
      [discriminate | reflexivity | lia].
  - apply (handleAgeChange_stores_parsed_age "abc" (Some 30%Z));
      [discriminate | reflexivity].
  - apply (handleAgeChange_stores_parsed_age "151" (Some 30%Z)) with 151%Z;
      [discriminate | reflexivity | lia].
Defined.

(** C8, as stated, fails: the entry 3.7 is neither empty nor an integer,
    yet the stored age changes, to 3. *)
Lemma handleAgeChange_fraction_counterexample :
  ~ (forall (value : string) (age : option Z),
       value <> "" -> isIntegerEntry value = false ->
       storedAge age (handleAgeChange value) = age).
Proof.
  intros H. specialize (H "3.7" None).
  assert (Hstored : storedAge None (handleAgeChange "3.7") = Some 3%Z)
    by reflexivity.
  rewrite Hstored in H. discriminate H; [discriminate | reflexivity].
Qed.

(** The stored age is always null or within [0,150]. *)
Lemma storedAge_in_range (value : string) (age : option Z) :
  (forall a, age = Some a -> (0 <= a <= 150)%Z) ->
  forall a, storedAge age (handleAgeChange value) = Some a ->
            (0 <= a <= 150)%Z.
Proof.
  intros Hage a. rewrite storedAge_handleAgeChange.
  destruct (value =? ""); [discriminate |].
  destruct (parseInt value) as [n |]; [| apply Hage].
  destruct ((n >=? 0) && (n <=? 150))%Z eqn:Ht; [| apply Hage].
  intros [= <-]. apply in_range_test. exact Ht.
Qed.

End AgeFacts.

(** ** The API client (lib/api.ts) *)
Section ClientFacts.

Import Api.

Context {Json : Type}.
Variable detail : Json -> option string.
Variable fetch : nat -> FormData -> Settled (@Response Json).

(** The body of [predictDisease], with the guard of the [catch] block as
    one test. *)
Lemma predictDisease_body (file : File) (age : option Z)
  (lesionLocation : option string) (retryCount : nat) :
  predictDisease detail fetch file age lesionLocation retryCount =
    let form := buildFormData file age lesionLocation in
    match tryBlock detail fetch retryCount form with
    | Returned p => (p, [Fetch retryCount form])
    | Thrown error =>
        if (retryCount <? MAX_RETRIES)%nat && shouldRetry (message error)
        then after [Fetch retryCount form; Sleep (backoff retryCount)]
               (predictDisease detail fetch file age lesionLocation
                  (S retryCount))
        else (Settles (Reject error), [Fetch retryCount form])
    | Stuck => (Pending, [Fetch retryCount form])
    end.
Proof.
  funelim (predictDisease detail fetch file age lesionLocation retryCount);
    cbn zeta;
    match goal with
    | H : tryBlock _ _ _ _ = _ |- _ => rewrite H
    end;
    try reflexivity;
    (destruct (retryCount <? MAX_RETRIES)%nat eqn:Hltb;
     [apply Nat.ltb_lt in Hltb | apply Nat.ltb_ge in Hltb]);
    try lia; cbn [andb];
    try match goal with
        | H : shouldRetry _ = _ |- _ => rewrite H
        end;
    reflexivity.
Qed.

Lemma requests_after (evs : list Event)
  (r : Promise (option Json) * list Event) :
  requests (snd (after evs r)) = requests evs + requests (snd r).
Proof.
  unfold requests, after. cbn [snd].
  rewrite filter_app, length_app. reflexivity.
Qed.

(** A bound on the attempts: an invocation with [retryCount] makes at
    least one request and at most one per remaining retry plus one. *)
Lemma requests_bound (file : File) (age : option Z)
  (lesionLocation : option string) (retryCount : nat) :
  1 <= requests
         (snd (predictDisease detail fetch file age lesionLocation retryCount))
    <= S (MAX_RETRIES - retryCount).
Proof.
  remember (MAX_RETRIES - retryCount) as budget eqn:Hb.
  revert retryCount Hb.
  induction budget as [| budget IH]; intros retryCount Hb;
    rewrite predictDisease_body; cbn zeta;
    destruct (tryBlock detail fetch retryCount
                (buildFormData file age lesionLocation)) as [p | error |];
    try (cbn; lia).
  - replace (retryCount <? MAX_RETRIES)%nat with false
      by (symmetry; apply Nat.ltb_ge; lia).
    cbn. lia.
  - destruct ((retryCount <? MAX_RETRIES)%nat && shouldRetry (message error));
      [| cbn; lia].
    rewrite requests_after.
    specialize (IH (S retryCount) ltac:(lia)).
    cbn [requests filter isFetch List.length]. lia.
Qed.

(** A failure whose message holds none of the three keywords is thrown
    after the one request of the invocation. *)
Lemma no_retry_without_keyword (file : File) (age : option Z)
  (lesionLocation : option string) (retryCount : nat) (error : Error) :
  tryBlock detail fetch retryCount (buildFormData file age lesionLocation)
    = Thrown error ->
  shouldRetry (message error) = false ->
  predictDisease detail fetch file age lesionLocation retryCount =
    (Settles (Reject error),
     [Fetch retryCount (buildFormData file age lesionLocation)]).
Proof.
  intros Htry Hmsg. rewrite predictDisease_body. cbn zeta.
  rewrite Htry, Hmsg, andb_false_r. reflexivity.
Qed.

(** A retry is made only for those messages, and only below the limit;
    the wait before it doubles from one second. *)
Lemma retry_only_with_keyword (file : File) (age : option Z)
  (lesionLocation : option string) (retryCount : nat) :
  1 < requests
        (snd (predictDisease detail fetch file age lesionLocation retryCount))
  ->
  exists error,
    tryBlock detail fetch retryCount (buildFormData file age lesionLocation)
      = Thrown error /\
    shouldRetry (message error) = true /\
    retryCount < MAX_RETRIES /\
    predictDisease detail fetch file age lesionLocation retryCount =
      after [Fetch retryCount (buildFormData file age lesionLocation);
             Sleep (backoff retryCount)]
        (predictDisease detail fetch file age lesionLocation (S retryCount)).
Proof.
  rewrite predictDisease_body. cbn zeta.
  destruct (tryBlock detail fetch retryCount
              (buildFormData file age lesionLocation)) as [p | error |].
  - cbn. lia.
  - destruct (retryCount <? MAX_RETRIES)%nat eqn:Hlt; cbn [andb];
      [| cbn; lia].
    destruct (shouldRetry (message error)) eqn:Hmsg; [| cbn; lia].
    intros _. exists error. apply Nat.ltb_lt in Hlt. auto.
  - cbn. lia.
Qed.

(** What the [try] block does with a response that is not ok, once its
    body has been read. *)
Lemma tryBlock_http_error (retryCount : nat) (form : FormData)
  (response : @Response Json) (body : Settled (option Json)) :
  fetch retryCount form = Resolve response ->
  ok response = false ->
  json response = Settles body ->
  tryBlock detail fetch retryCount form =
    if (status response =? 413)%N then
      Thrown (newError "File too large. Maximum size is 10MB.")
    else if (status response =? 400)%N then
      throwMessage (detailOr detail body
        "Invalid image file. Please upload a clear JPEG or PNG image.")
    else if (status response =? 429)%N then
      Thrown (newError "Too many requests. Please wait a moment and try again.")
    else
      throwMessage (detailOr detail body "Prediction failed. Please try again.").
Proof.
  intros Hfetch Hok Hbody. unfold tryBlock, fetchWithTimeout.
  rewrite Hfetch, Hok, Hbody. reflexivity.
Qed.

(** While the body of a response that is not ok does not arrive, the
    [try] block does not complete. *)
Lemma tryBlock_http_pending (retryCount : nat) (form : FormData)
  (response : @Response Json) :
  fetch retryCount form = Resolve response ->
  ok response = false ->
  json response = Pending ->
  tryBlock detail fetch retryCount form = Stuck.
Proof.
  intros Hfetch Hok Hbody. unfold tryBlock, fetchWithTimeout.
  rewrite Hfetch, Hok, Hbody. reflexivity.
Qed.

(** The only promises the [try] block waits for or returns are the body
    reads of the responses. *)
Lemma tryBlock_waits_for_body (retryCount : nat) (form : FormData) :
  (forall p, tryBlock detail fetch retryCount form = Returned p ->
     exists response,
       fetch retryCount form = Resolve response /\ p = json response) /\
  (tryBlock detail fetch retryCount form = Stuck ->
     exists response,
       fetch retryCount form = Resolve response /\ json response = Pending).
Proof.
  unfold tryBlock, fetchWithTimeout.
  destruct (fetch retryCount form) as [response | error].
  - destruct (negb (ok response)).
    + destruct (json response) as [body |] eqn:Hbody.
      * split; [intros p | ];
          (destruct (status response =? 413)%N; [discriminate |]);
          (destruct (status response =? 400)%N;
           [destruct (detailOr detail body _); discriminate |]);
          (destruct (status response =? 429)%N; [discriminate |]);
          destruct (detailOr detail body _); discriminate.
      * split; [discriminate |]. intros _. exists response. auto.
    + split; [| discriminate].
      intros p [= <-]. exists response. auto.
  - split; [intros p |]; destruct (name error =? "AbortError"); discriminate.
Qed.

(** The call settles when every body read settles. *)
Lemma predictDisease_settles (file : File) (age : option Z)
  (lesionLocation : option string) (retryCount : nat) :
  (forall k response,
     fetch k (buildFormData file age lesionLocation) = Resolve response ->
     json response <> Pending) ->
  exists s,
    fst (predictDisease detail fetch file age lesionLocation retryCount)
    = Settles s.
Proof.
  intros Hbodies.
  remember (MAX_RETRIES - retryCount) as budget eqn:Hb.
  revert retryCount Hb.
  induction budget as [| budget IH]; intros retryCount Hb;
    rewrite predictDisease_body; cbn zeta;
    pose proof (tryBlock_waits_for_body retryCount
                  (buildFormData file age lesionLocation)) as [Hret Hstuck];
    destruct (tryBlock detail fetch retryCount
                (buildFormData file age lesionLocation)) as [p | error |].
  1, 4: (destruct (Hret p eq_refl) as (response & Hfetch & ->);
         pose proof (Hbodies _ _ Hfetch) as Hne;
         destruct (json response) as [s |]; [exists s; reflexivity | congruence]).
  2, 4: (destruct (Hstuck eq_refl) as (response & Hfetch & Hpending);
         destruct (Hbodies _ _ Hfetch Hpending)).
  - replace (retryCount <? MAX_RETRIES)%nat with false
      by (symmetry; apply Nat.ltb_ge; lia).
    eexists. reflexivity.
  - destruct ((retryCount <? MAX_RETRIES)%nat && shouldRetry (message error));
      [| eexists; reflexivity].
    destruct (IH (S retryCount) ltac:(lia)) as [s Hs].
    exists s. unfold after. cbn [fst]. exact Hs.
Qed.

(** C10, as amended: from [retryCount] 0 the client makes between one and
    [MAX_RETRIES + 1 = 3] requests, and the call settles when every body
    read settles; a further request is made only after a failure whose
    message contains network, fetch or timeout; a 413 or 429 response is
    followed by no further request: the error is thrown once the body has
    been read, and the call stays pending while it has not; a 400
    response whose body has been read is thrown after the one request
    when what it is converted to (the server's detail, the default text
    when there is none, or the TypeError of a null body) has a message
    with none of the keywords. *)
Theorem predictDisease_bounded_retries (file : File) (age : option Z)
  (lesionLocation : option string) :
  let form := buildFormData file age lesionLocation in
  let attempt := predictDisease detail fetch file age lesionLocation in
  (1 <= requests (snd (attempt 0)) <= MAX_RETRIES + 1 /\
   MAX_RETRIES + 1 = 3) /\
  ((forall k response,
      fetch k form = Resolve response -> json response <> Pending) ->
   exists s, fst (attempt 0) = Settles s) /\
  (forall retryCount,
     1 < requests (snd (attempt retryCount)) ->
     exists error,
       tryBlock detail fetch retryCount form = Thrown error /\
       shouldRetry (message error) = true /\
       retryCount < MAX_RETRIES) /\
  (forall retryCount response,
     fetch retryCount form = Resolve response ->
     (status response = 413 \/ status response = 429)%N ->
     (forall body,
        json response = Settles body ->
        exists error,
          attempt retryCount
          = (Settles (Reject error), [Fetch retryCount form])) /\
     (json response = Pending ->
      attempt retryCount = (Pending, [Fetch retryCount form]))) /\
  (forall retryCount response body,
     fetch retryCount form = Resolve response ->
     status response = 400%N ->
     json response = Settles body ->
     match detailOr detail body
             "Invalid image file. Please upload a clear JPEG or PNG image."
     with
     | inl error => shouldRetry (message error)
     | inr msg => shouldRetry msg
     end = false ->
     exists error,
       attempt retryCount
       = (Settles (Reject error), [Fetch retryCount form])).
Proof.
  cbn zeta. split; [| split; [| split; [| split]]].
  - split; [| reflexivity].
    pose proof (requests_bound file age lesionLocation 0) as H.
    rewrite Nat.sub_0_r in H. lia.
  - apply predictDisease_settles.
  - intros retryCount Hmore.
    destruct (retry_only_with_keyword _ _ _ _ Hmore)
      as (error & Htry & Hmsg & Hlt & _).
    exists error. auto.
  - intros retryCount response Hfetch Hstatus.
    assert (Hok : ok response = false)
      by (unfold ok; destruct Hstatus as [-> | ->]; reflexivity).
    split.
    + intros body Hbody.
      pose proof (tryBlock_http_error _ _ _ _ Hfetch Hok Hbody) as Htry.
      destruct Hstatus as [Hs | Hs]; rewrite Hs in Htry;
        cbn [N.eqb Pos.eqb] in Htry; eexists;
        (apply no_retry_without_keyword; [exact Htry | reflexivity]).
    + intros Hbody. rewrite predictDisease_body. cbn zeta.
      rewrite (tryBlock_http_pending _ _ _ Hfetch Hok Hbody). reflexivity.
  - intros retryCount response body Hfetch Hstatus Hbody Hmsg.
    assert (Hok : ok response = false)
      by (unfold ok; rewrite Hstatus; reflexivity).
    pose proof (tryBlock_http_error _ _ _ _ Hfetch Hok Hbody) as Htry.
    rewrite Hstatus in Htry. cbn [N.eqb Pos.eqb] in Htry.
    destruct (detailOr detail body _) as [error | msg];
      cbn [throwMessage] in Htry; eexists;
      (apply no_retry_without_keyword; [exact Htry | exact Hmsg]).
Qed.

End ClientFacts.

Lemma predictDisease_bounded_retries_witness :
  (exists error,
     Api.predictDisease Samples.detail_of Samples.strict_server
       Samples.good_file (Some 30%Z) (Some "Face") 0
     = (Settles (Reject error),
        [Api.Fetch 0
           (Api.buildFormData Samples.good_file (Some 30%Z) (Some "Face"))]))
  /\
  Api.predictDisease Samples.detail_of Scenarios.hanging
    Samples.good_file (Some 30%Z) (Some "Face") 0
  = (Pending,
     [Api.Fetch 0
        (Api.buildFormData Samples.good_file (Some 30%Z) (Some "Face"))]).
Proof.
  split.
  - destruct (predictDisease_bounded_retries Samples.detail_of
                Samples.strict_server Samples.good_file (Some 30%Z)
                (Some "Face")) as (_ & _ & _ & Hfixed & _).
    destruct (Hfixed 0 (Api.mkResponse 413 (Settles (Resolve (Some None)))))
      as [Hthrown _]; [reflexivity | left; reflexivity |].
    apply (Hthrown (Resolve (Some None))). reflexivity.
  - destruct (predictDisease_bounded_retries Samples.detail_of
                Scenarios.hanging Samples.good_file (Some 30%Z)
                (Some "Face")) as (_ & _ & _ & Hfixed & _).
    destruct (Hfixed 0 (Api.mkResponse 413 Pending)) as [_ Hpending];
      [reflexivity | left; reflexivity |].
    apply Hpending. reflexivity.
Defined.

(** Offline, the client gives up after three requests and two waits. *)
Example predictDisease_offline :
  map (fun e => match e with Api.Fetch k _ => inl k | Api.Sleep ms => inr ms end)
    (snd (Api.predictDisease Samples.detail_of Samples.offline
            Samples.good_file None (Some "Face") 0))
  = [inl 0; inr 1000%N; inl 1; inr 2000%N; inl 2].
Proof. reflexivity. Qed.

(** C10, as stated, fails for 400: a 400 response whose detail mentions a
    timeout is retried, three requests in all. *)
Lemma predictDisease_retries_http_400 :
  Samples.slow_decoder 0
    (Api.buildFormData Samples.good_file None (Some "Face"))
  = Samples.answer 400 (Some "Image decode timeout") /\
  Api.requests
    (snd (Api.predictDisease Samples.detail_of Samples.slow_decoder
            Samples.good_file None (Some "Face") 0)) = 3.
Proof. split; reflexivity. Qed.

(** ** The page (app/page.tsx) *)
Section PageFacts.

Import Api Home.

Context {Json : Type}.
Variable detail : Json -> option string.
Variable fetch : nat -> FormData -> Settled (@Response Json).

(** Every request of one call of [predictDisease] carries the form built
    from its arguments. *)
Lemma predictDisease_forms (file : File) (age : option Z)
  (lesionLocation : option string) (retryCount k : nat) (body : FormData) :
  In (Fetch k body)
    (snd (predictDisease detail fetch file age lesionLocation retryCount)) ->
  body = buildFormData file age lesionLocation.
Proof.
  remember (MAX_RETRIES - retryCount) as budget eqn:Hb.
  revert retryCount Hb.
  induction budget as [| budget IH]; intros retryCount Hb;
    rewrite predictDisease_body; cbn zeta;
    destruct (tryBlock detail fetch retryCount
                (buildFormData file age lesionLocation)) as [p | error |];
    try (cbn; intros [[= _ <-] | []]; reflexivity).
  - replace (retryCount <? MAX_RETRIES)%nat with false
      by (symmetry; apply Nat.ltb_ge; lia).
    cbn. intros [[= _ <-] | []]. reflexivity.
  - destruct ((retryCount <? MAX_RETRIES)%nat && shouldRetry (message error)).
    + unfold after. cbn [snd app In].
      intros [[= _ <-] | [[=] | Hin]]; [reflexivity |].
      apply (IH (S retryCount)); [lia | exact Hin].
    + cbn. intros [[= _ <-] | []]. reflexivity.
Qed.

Lemma handlePredict_lesionLocation (st : State) :
  lesionLocation (fst (handlePredict detail fetch st)) = lesionLocation st.
Proof.
  unfold handlePredict.
  destruct (selectedImage st) as [image |]; [| reflexivity].
  destruct (lesionLocation st =? ""); [reflexivity |].
  destruct (predictDisease _ _ _ _ _ _) as [[[r | err] |] evs]; reflexivity.
Qed.

(** Without a lesion location [handlePredict] sends nothing and reports
    the missing location, or the missing image when there is none
    either. *)
Lemma handlePredict_empty_location (st : State) :
  lesionLocation st = "" ->
  snd (handlePredict detail fetch st) = [] /\
  (selectedImage st <> None ->
   handlePredict detail fetch st
   = (setError (Some "Please select a lesion location") st, [])) /\
  (selectedImage st = None ->
   handlePredict detail fetch st
   = (setError (Some "Please upload an image first") st, [])).
Proof.
  intros Hloc. unfold handlePredict.
  destruct (selectedImage st) as [image |].
  - rewrite Hloc. split; [reflexivity |].
    split; [reflexivity | discriminate].
  - split; [reflexivity |]. split; [congruence | reflexivity].
Qed.

Lemma handlePredict_requests (st : State) (k : nat) (body : FormData) :
  In (Fetch k body) (snd (handlePredict detail fetch st)) ->
  lesionLocation st <> "" /\
  form_lesion_location body = Some (lesionLocation st).
Proof.
  unfold handlePredict.
  destruct (selectedImage st) as [image |]; [| intros []].
  destruct (lesionLocation st =? "") eqn:Hloc; [intros [] |].
  destruct (predictDisease _ _ _ _ _ _) as [result evs] eqn:Hcall.
  intros Hin.
  assert (Hevs : In (Fetch k body) evs)
    by (destruct result as [[r | err] |]; exact Hin).
  replace evs with (snd (predictDisease detail fetch image
                           (age (setPrediction None
                              (setError None (setIsLoading true st))))
                           (Some (lesionLocation
                              (setPrediction None
                                 (setError None (setIsLoading true st))))) 0))
    in Hevs by (rewrite Hcall; reflexivity).
  apply predictDisease_forms in Hevs. subst body.
  cbn. rewrite Hloc. apply String.eqb_neq in Hloc. split; [exact Hloc | reflexivity].
Qed.

Lemma selectedValue_option (choice : nat) :
  In (PatientMetadata.selectedValue choice) PatientMetadata.locationOptions.
Proof.
  unfold PatientMetadata.selectedValue.
  destruct (nth_in_or_default choice PatientMetadata.locationOptions "")
    as [Hin | ->]; [exact Hin | left; reflexivity].
Qed.

(** The location cell only ever holds one of the select's option values. *)
Lemma step_lesionLocation (st : State) (ev : UserEvent) :
  In (lesionLocation st) PatientMetadata.locationOptions ->
  In (lesionLocation (fst (step detail fetch st ev)))
    PatientMetadata.locationOptions.
Proof.
  intros Hinv. destruct ev as [file | result | value | choice | |]; cbn.
  - destruct file; exact Hinv.
  - exact Hinv.
  - exact Hinv.
  - apply selectedValue_option.
  - rewrite handlePredict_lesionLocation. exact Hinv.
  - left. reflexivity.
Qed.

Lemma session_requests (evs : list UserEvent) (st : State) (k : nat)
  (body : FormData) :
  In (lesionLocation st) PatientMetadata.locationOptions ->
  In (Fetch k body) (snd (session detail fetch st evs)) ->
  exists l, form_lesion_location body = Some l /\
            In l Types.LESION_LOCATIONS.
Proof.
  revert st. induction evs as [| ev evs IH]; intros st Hinv; [intros [] |].
  cbn [session].
  pose proof (step_lesionLocation st ev Hinv) as Hnext.
  destruct (step detail fetch st ev) as [st1 out1] eqn:Hstep.
  destruct (session detail fetch st1 evs) as [st2 out2] eqn:Hrun.
  cbn [snd fst] in *. intros Hin. apply in_app_or in Hin as [Hin | Hin].
  - destruct ev; cbn in Hstep; try (injection Hstep as <- <-; destruct Hin).
    replace out1 with (snd (handlePredict detail fetch st)) in Hin
      by (rewrite Hstep; reflexivity).
    apply handlePredict_requests in Hin as [Hne Hloc].
    exists (lesionLocation st). split; [exact Hloc |].
    destruct Hinv as [Hempty | Hin']; [congruence | exact Hin'].
  - apply (IH st1 Hnext). rewrite Hrun. exact Hin.
Qed.

(** C7, as amended: the enumeration has exactly ten distinct regions; the
    page sends no prediction request while the lesion location is empty:
    with an image selected it only sets the error to Please select a
    lesion location, and with no image to Please upload an image first;
    every request a session of the page sends carries one of the ten
    regions; only the API client treats the parameter as optional,
    leaving the field out of the form. *)
Theorem lesion_location_required_by_page :
  (List.length Types.LESION_LOCATIONS = 10 /\ NoDup Types.LESION_LOCATIONS) /\
  (forall st : State,
     lesionLocation st = "" ->
     snd (handlePredict detail fetch st) = [] /\
     (selectedImage st <> None ->
      handlePredict detail fetch st
      = (setError (Some "Please select a lesion location") st, [])) /\
     (selectedImage st = None ->
      handlePredict detail fetch st
      = (setError (Some "Please upload an image first") st, []))) /\
  (forall (evs : list UserEvent) (k : nat) (body : FormData),
     In (Fetch k body) (snd (session detail fetch initial evs)) ->
     exists l, form_lesion_location body = Some l /\
               In l Types.LESION_LOCATIONS) /\
  (forall (file : File) (age : option Z) (k : nat) (body : FormData),
     In (Fetch k body) (snd (predictDisease detail fetch file age None 0)) ->
     form_lesion_location body = None).
Proof.
  split; [| split; [| split]].
  - split; [reflexivity |].
    repeat (constructor; [cbn; intuition discriminate |]). constructor.
  - apply handlePredict_empty_location.
  - intros evs k body. apply session_requests. left. reflexivity.
  - intros file age k body Hin. apply predictDisease_forms in Hin.
    subst body. reflexivity.
Qed.

End PageFacts.

Lemma lesion_location_required_by_page_witness :
  Home.handlePredict Samples.detail_of Samples.healthy Samples.image_only
  = (Home.setError (Some "Please select a lesion location")
       Samples.image_only, []).
Proof.
  destruct (lesion_location_required_by_page Samples.detail_of
              Samples.healthy) as (_ & Hguard & _).
  destruct (Hguard Samples.image_only) as (_ & Hlocation & _);
    [reflexivity |].
  apply Hlocation. discriminate.
Defined.

(** C7, as stated, fails: with an image chosen and no lesion location the
    predict handler sends no request, even to a healthy server. *)
Lemma handlePredict_without_location_sends_nothing :
  Home.selectedImage Samples.image_only = Some Samples.good_file /\
  Home.lesionLocation Samples.image_only = "" /\
  Home.handlePredict Samples.detail_of Samples.healthy Samples.image_only
  = (Home.setError (Some "Please select a lesion location")
       Samples.image_only, []).
Proof. repeat split. Qed.

(** With a location picked, the same page sends the request. *)
Example handlePredict_with_location :
  map (fun e => match e with
                | Api.Fetch _ body => Api.form_lesion_location body
                | Api.Sleep _ => None
                end)
    (snd (Home.session Samples.detail_of Samples.healthy Samples.image_only
            [Home.LocationPicked 1; Home.PredictClicked]))
  = [Some "Face"].
Proof. reflexivity. Qed.

(** ** The diagnosis core *)
Section CoreFacts.

Import Core.
Local Open Scope Q_scope.

Lemma Qle_bool_false (x y : Q) : Qle_bool x y = false <-> y < x.
Proof.
  split.
  - intros Hb. destruct (Qlt_le_dec y x) as [Hlt | Hle]; [exact Hlt |].
    apply Qle_bool_iff in Hle. congruence.
  - intros Hlt. destruct (Qle_bool x y) eqn:Hb; [| reflexivity].
    apply Qle_bool_iff in Hb. lra.
Qed.

Ltac decide_tests :=
  repeat match goal with
         | H : Qle_bool _ _ = true |- _ => apply Qle_bool_iff in H
         | H : Qle_bool _ _ = false |- _ => apply Qle_bool_false in H
         end.

(** [confidence] is the largest of the four probabilities. *)
Lemma confidence_upper_bound (pv : ProbabilityVector) (c : ClassName) :
  prob pv c <= confidence pv.
Proof.
  unfold confidence, predicted_class. cbn [fold_left].
  unfold better at 3.
  destruct (Qle_bool (prob pv CherryAngioma) (prob pv Acne)) eqn:H1;
    unfold better at 2;
    match goal with
    | |- context [Qle_bool (prob pv Melanoma) ?b] =>
        destruct (Qle_bool (prob pv Melanoma) b) eqn:H2
    end;
    unfold better;
    match goal with
    | |- context [Qle_bool (prob pv Psoriasis) ?b] =>
        destruct (Qle_bool (prob pv Psoriasis) b) eqn:H3
    end;
    decide_tests; destruct c; cbn [prob] in *; lra.
Qed.

Lemma confidence_attained (pv : ProbabilityVector) :
  exists c, confidence pv = prob pv c.
Proof. exists (predicted_class pv). reflexivity. Qed.

(** The first-match cascade, rule by rule. *)
Lemma triage_level_rules (pv : ProbabilityVector) :
  (CRITICAL_THRESHOLD <= melanoma pv -> triage_level pv = CRITICAL) /\
  (melanoma pv < CRITICAL_THRESHOLD -> HIGH_THRESHOLD <= melanoma pv ->
     triage_level pv = HIGH) /\
  (melanoma pv < HIGH_THRESHOLD -> CONFIDENCE_THRESHOLD <= confidence pv ->
     triage_level pv = MEDIUM) /\
  (melanoma pv < HIGH_THRESHOLD -> confidence pv < CONFIDENCE_THRESHOLD ->
     triage_level pv = LOW).
Proof.
  unfold triage_level, CRITICAL_THRESHOLD, HIGH_THRESHOLD, CONFIDENCE_THRESHOLD.
  destruct (Qle_bool (50 # 100) (melanoma pv)) eqn:Hc;
    destruct (Qle_bool (30 # 100) (melanoma pv)) eqn:Hh;
    destruct (Qle_bool (70 # 100) (confidence pv)) eqn:Hm;
    decide_tests;
    repeat split; intros; try reflexivity; lra.
Qed.

Variable message_of : TriageLevel -> Q -> string.

(** C1: [classify] applies the rules in first-match order (melanoma at
    least 0.50: CRITICAL; else at least 0.30: HIGH; else some class at
    least 0.70: MEDIUM; else LOW), and flags immediate attention exactly
    for CRITICAL and HIGH. *)
Theorem classify_first_match (pv : ProbabilityVector) :
  let t := classify message_of pv in
  (50 # 100 <= melanoma pv -> level t = CRITICAL) /\
  (melanoma pv < 50 # 100 -> 30 # 100 <= melanoma pv -> level t = HIGH) /\
  (melanoma pv < 30 # 100 -> (exists c, 70 # 100 <= prob pv c) ->
     level t = MEDIUM) /\
  (melanoma pv < 30 # 100 -> (forall c, prob pv c < 70 # 100) ->
     level t = LOW) /\
  (requires_immediate_attention t = true <->
     level t = CRITICAL \/ level t = HIGH) /\
  melanoma_probability t = melanoma pv.
Proof.
  cbn zeta. cbn [classify level requires_immediate_attention
                 melanoma_probability].
  destruct (triage_level_rules pv) as (Hc & Hh & Hm & Hl).
  split; [exact Hc |]. split; [exact Hh |]. split; [| split; [| split]].
  - intros Hlow [c Hc70]. apply Hm; [exact Hlow |].
    unfold CONFIDENCE_THRESHOLD.
    pose proof (confidence_upper_bound pv c). lra.
  - intros Hlow Hall. apply Hl; [exact Hlow |].
    destruct (confidence_attained pv) as [c ->]. apply Hall.
  - destruct (triage_level pv); split;
      try discriminate; try (intros [H | H]; discriminate H); auto.
  - reflexivity.
Qed.

(** The documented boundary cases. *)
Example boundary_050 :
  triage_level (mkVector (20 # 100) (20 # 100) (50 # 100) (10 # 100))
  = CRITICAL.
Proof. reflexivity. Qed.

Example boundary_04999 :
  triage_level (mkVector (2000 # 10000) (2000 # 10000) (4999 # 10000)
                  (1001 # 10000)) = HIGH.
Proof. reflexivity. Qed.

Example boundary_030 :
  triage_level (mkVector (40 # 100) (20 # 100) (30 # 100) (10 # 100)) = HIGH.
Proof. reflexivity. Qed.

Example boundary_02999_top_070 :
  triage_level (mkVector (7000 # 10000) (1 # 10000) (2999 # 10000) 0)
  = MEDIUM.
Proof. reflexivity. Qed.

Example boundary_top_06999 :
  triage_level (mkVector (6999 # 10000) (1001 # 10000) (1000 # 10000)
                  (1000 # 10000)) = LOW.
Proof. reflexivity. Qed.

(** The end-to-end scenario of the design document. *)
Example scenario_melanoma_062 :
  let pv := mkVector (20 # 100) (8 # 100) (62 # 100) (10 # 100) in
  predicted_class pv = Melanoma /\
  confidence pv = 62 # 100 /\
  level (classify sample_message pv) = CRITICAL /\
  requires_immediate_attention (classify sample_message pv) = true /\
  total pv == 1.
Proof. repeat split. Qed.

(** Melanoma-driven escalation is monotone between any two vectors; the
    one drop the rules allow is from MEDIUM to LOW. *)
Lemma triage_level_monotone (p1 p2 : ProbabilityVector) :
  melanoma p1 <= melanoma p2 ->
  HIGH_THRESHOLD <= melanoma p2 \/
  CONFIDENCE_THRESHOLD <= confidence p2 \/
  confidence p1 < CONFIDENCE_THRESHOLD ->
  (severity (triage_level p1) <= severity (triage_level p2))%nat.
Proof.
  unfold triage_level, CRITICAL_THRESHOLD, HIGH_THRESHOLD, CONFIDENCE_THRESHOLD.
  intros Hm Hcond.
  destruct (Qle_bool (50 # 100) (melanoma p1)) eqn:Hc1;
    destruct (Qle_bool (30 # 100) (melanoma p1)) eqn:Hh1;
    destruct (Qle_bool (70 # 100) (confidence p1)) eqn:Hm1;
    destruct (Qle_bool (50 # 100) (melanoma p2)) eqn:Hc2;
    destruct (Qle_bool (30 # 100) (melanoma p2)) eqn:Hh2;
    destruct (Qle_bool (70 # 100) (confidence p2)) eqn:Hm2;
    decide_tests; cbn [severity]; try lia; lra.
Qed.

(** C4, as amended: along a sweep with fixed non-melanoma proportions, the
    vector with the larger melanoma probability is never triaged lower,
    provided its melanoma probability is at least 0.30 or its top
    probability is still at least 0.70, or the top probability of the
    other vector was already below 0.70. *)
Theorem triage_monotone_along_sweep (ra rc rp m1 m2 : Q) :
  m1 <= m2 ->
  30 # 100 <= m2 \/
  70 # 100 <= confidence (sweep ra rc rp m2) \/
  confidence (sweep ra rc rp m1) < 70 # 100 ->
  (severity (level (classify message_of (sweep ra rc rp m1)))
   <= severity (level (classify message_of (sweep ra rc rp m2))))%nat.
Proof.
  intros Hm Hcond. cbn [classify level].
  apply triage_level_monotone; [exact Hm | exact Hcond].
Qed.

End CoreFacts.

Lemma triage_monotone_along_sweep_witness :
  (Core.severity
     (Core.level (Core.classify Core.sample_message
        (Core.sweep (3 # 4) (1 # 4) 0 (1 # 5))))
   <= Core.severity
        (Core.level (Core.classify Core.sample_message
           (Core.sweep (3 # 4) (1 # 4) 0 (2 # 5)))))%nat.
Proof.
  apply triage_monotone_along_sweep.
  - discriminate.
  - left. discriminate.
Defined.

(** C4, as stated, fails: with the other classes in proportion 3 : 1 : 0,
    raising the melanoma probability from 0 to 0.2 takes the top class
    from 0.75 to 0.60 and the level from MEDIUM down to LOW. *)
Lemma triage_drops_along_sweep :
  (0 <= 3 # 4 /\ 0 <= 1 # 4 /\ (3 # 4) + (1 # 4) + 0 == 1 /\
   0 <= 0 /\ 0 < 1 # 5 /\ 1 # 5 <= 1)%Q /\
  Core.level (Core.classify Core.sample_message
                (Core.sweep (3 # 4) (1 # 4) 0 0)) = Core.MEDIUM /\
  Core.level (Core.classify Core.sample_message
                (Core.sweep (3 # 4) (1 # 4) 0 (1 # 5))) = Core.LOW /\
  ~ (Core.severity
       (Core.level (Core.classify Core.sample_message
                      (Core.sweep (3 # 4) (1 # 4) 0 0)))
     <= Core.severity
          (Core.level (Core.classify Core.sample_message
                         (Core.sweep (3 # 4) (1 # 4) 0 (1 # 5))))).
Proof.
  split; [| split; [reflexivity | split; [reflexivity |]]].
  - repeat split; try discriminate; reflexivity.
  - cbn. lia.
Qed.

(** * Further properties *)

(** ** Strings *)
Section StringFacts.

Lemma prefix_spec (p s : string) :
  String.prefix p s = true <-> exists b, s = p ++ b.
Proof.
  revert s. induction p as [| c p IH]; intros s.
  - split; [intros _; exists s; reflexivity |].
    intros _. destruct s; reflexivity.
  - destruct s as [| d s]; cbn [String.prefix append].
    + split; [discriminate | intros [b Hb]; discriminate Hb].
    + destruct (ascii_dec c d) as [-> | Hne].
      * rewrite IH. split; intros [b Hb]; exists b.
        -- rewrite Hb. reflexivity.
        -- injection Hb as ->. reflexivity.
      * split; [discriminate |].
        intros [b Hb]. injection Hb as Hcd _. congruence.
Qed.

Lemma includes_spec (s p : string) :
  includes s p = true <-> exists a b, s = a ++ p ++ b.
Proof.
  induction s as [| c s IH]; cbn [includes].
  - destruct (String.prefix p "") eqn:Hp.
    + apply prefix_spec in Hp as [b Hb].
      split; [intros _; exists "", b; exact Hb | reflexivity].
    + split; [discriminate |].
      intros (a & b & Hab).
      destruct a as [| x a]; [| discriminate Hab].
      assert (Htrue : String.prefix p "" = true)
        by (apply prefix_spec; exists b; exact Hab).
      congruence.
  - destruct (String.prefix p (String c s)) eqn:Hp.
    + apply prefix_spec in Hp as [b Hb].
      split; [intros _; exists "", b; exact Hb | reflexivity].
    + rewrite IH. split.
      * intros (a & b & Hab). exists (String c a), b. cbn. rewrite Hab.
        reflexivity.
      * intros (a & b & Hab). destruct a as [| x a].
        -- assert (Htrue : String.prefix p (String c s) = true)
             by (apply prefix_spec; exists b; exact Hab).
           congruence.
        -- injection Hab as _ Hs. exists a, b. exact Hs.
Qed.

(** X5: the test of the [catch] block holds exactly for the messages
    that contain network, fetch or timeout as a substring (case
    matters). *)
Theorem shouldRetry_substring (msg : string) :
  Api.shouldRetry msg = true <->
  exists word a b,
    In word ["network"; "fetch"; "timeout"] /\ msg = a ++ word ++ b.
Proof.
  unfold Api.shouldRetry. rewrite !orb_true_iff, !includes_spec. split.
  - intros [[(a & b & H) | (a & b & H)] | (a & b & H)].
    + exists "network", a, b. cbn. auto.
    + exists "fetch", a, b. cbn. auto.
    + exists "timeout", a, b. cbn. auto.
  - intros (word & a & b & Hin & Hmsg).
    destruct Hin as [<- | [<- | [<- | []]]]; eauto.
Qed.

End StringFacts.

(** ** The API client: traces, recovery and timeouts *)
Section ClientTraceFacts.

Import Api ApiTrace.

Context {Json : Type}.
Variable detail : Json -> option string.
Variable fetch : nat -> FormData -> Settled (@Response Json).

Lemma waited_schedule_bound (form : FormData) (retries : nat) :
  retries <= MAX_RETRIES ->
  (waited (schedule form 0 retries) <= 3000)%N.
Proof.
  unfold MAX_RETRIES. intros Hk.
  destruct retries as [| [| [| k]]]; [| | | lia]; vm_compute; discriminate.
Qed.

Lemma predictDisease_schedule (file : File) (age : option Z)
  (lesionLocation : option string) (retryCount : nat) :
  exists retries,
    retries <= MAX_RETRIES - retryCount /\
    snd (predictDisease detail fetch file age lesionLocation retryCount)
    = schedule (buildFormData file age lesionLocation) retryCount retries.
Proof.
  remember (MAX_RETRIES - retryCount) as budget eqn:Hb.
  revert retryCount Hb.
  induction budget as [| budget IH]; intros retryCount Hb;
    rewrite predictDisease_body; cbn zeta;
    destruct (tryBlock detail fetch retryCount
                (buildFormData file age lesionLocation)) as [p | error |];
    try (exists 0; split; [lia | reflexivity]).
  - replace (retryCount <? MAX_RETRIES)%nat with false
      by (symmetry; apply Nat.ltb_ge; lia).
    exists 0. split; [lia | reflexivity].
  - destruct ((retryCount <? MAX_RETRIES)%nat && shouldRetry (message error)).
    + destruct (IH (S retryCount) ltac:(lia)) as (k & Hk & Htrace).
      exists (S k). split; [lia |].
      unfold after. cbn [snd app schedule]. rewrite Htrace. reflexivity.
    + exists 0. split; [lia | reflexivity].
Qed.

(** X1: the trace of [predictDisease] is a schedule: requests with
    consecutive retry counts from the given one, each but the last
    followed by a wait of 1000 * 2^retryCount ms, at most
    [MAX_RETRIES - retryCount] retries; from 0 the waits add up to at most
    three seconds. *)
Theorem predictDisease_follows_schedule (file : File) (age : option Z)
  (lesionLocation : option string) :
  (forall retryCount,
     exists retries,
       retries <= MAX_RETRIES - retryCount /\
       snd (predictDisease detail fetch file age lesionLocation retryCount)
       = schedule (buildFormData file age lesionLocation) retryCount retries)
  /\
  (waited (snd (predictDisease detail fetch file age lesionLocation 0))
   <= 3000)%N.
Proof.
  split; [intros retryCount; apply predictDisease_schedule |].
  destruct (predictDisease_schedule file age lesionLocation 0)
    as (k & Hk & ->).
  apply waited_schedule_bound. lia.
Qed.

(** X2: the first attempt that is not retried decides.  If the attempts
    at [retryCount], ..., [retryCount + k - 1] each throw an error with a
    retry keyword, and the attempt at [retryCount + k] (still within
    [MAX_RETRIES]) returns, throws another kind of error, stays at
    reading its body, or is the last one allowed, then the promise is the
    outcome of that attempt (so the rejection after exhausted retries is
    the last error, not the first), after [k + 1] requests. *)
Theorem first_final_attempt_decides (file : File) (age : option Z)
  (lesionLocation : option string) (k retryCount : nat) :
  let form := buildFormData file age lesionLocation in
  retryCount + k <= MAX_RETRIES ->
  (forall i, i < k ->
     retryable (tryBlock detail fetch (retryCount + i) form) = true) ->
  retryable (tryBlock detail fetch (retryCount + k) form) = false \/
  retryCount + k = MAX_RETRIES ->
  predictDisease detail fetch file age lesionLocation retryCount
  = (settle (tryBlock detail fetch (retryCount + k) form),
     schedule form retryCount k).
Proof.
  cbn zeta. revert retryCount.
  induction k as [| k IH]; intros retryCount Hle Hfail Hlast;
    rewrite predictDisease_body; cbn zeta.
  - rewrite Nat.add_0_r in Hlast.
    destruct (tryBlock detail fetch retryCount
                (buildFormData file age lesionLocation))
      as [p | error |] eqn:Ht;
      rewrite Nat.add_0_r, Ht; [reflexivity | | reflexivity].
    replace ((retryCount <? MAX_RETRIES)%nat && shouldRetry (message error))
      with false; [reflexivity |].
    symmetry. destruct Hlast as [Hno | Hmax].
    + cbn in Hno. rewrite Hno. apply andb_false_r.
    + replace (retryCount <? MAX_RETRIES)%nat with false
        by (symmetry; apply Nat.ltb_ge; lia).
      reflexivity.
  - pose proof (Hfail 0 ltac:(lia)) as H0. rewrite Nat.add_0_r in H0.
    destruct (tryBlock detail fetch retryCount
                (buildFormData file age lesionLocation)) as [p | error |];
      [discriminate H0 | | discriminate H0].
    cbn in H0. rewrite H0.
    replace (retryCount <? MAX_RETRIES)%nat with true
      by (symmetry; apply Nat.ltb_lt; lia).
    cbn [andb].
    rewrite (IH (S retryCount)).
    + unfold after. cbn [fst snd app schedule].
      replace (S retryCount + k) with (retryCount + S k) by lia.
      reflexivity.
    + lia.
    + intros i Hi. replace (S retryCount + i) with (retryCount + S i) by lia.
      apply Hfail. lia.
    + replace (S retryCount + k) with (retryCount + S k) by lia.
      exact Hlast.
Qed.

(** X3: a response with a 2xx status ends the call with one request: the
    promise follows [response.json()], also when the body cannot be
    parsed, whatever the message of that rejection. *)
Theorem ok_response_is_final (file : File) (age : option Z)
  (lesionLocation : option string) (retryCount : nat)
  (response : @Response Json) :
  fetch retryCount (buildFormData file age lesionLocation) = Resolve response ->
  (200 <= status response <= 299)%N ->
  predictDisease detail fetch file age lesionLocation retryCount
  = (json response,
     [Fetch retryCount (buildFormData file age lesionLocation)]).
Proof.
  intros Hfetch Hstatus. rewrite predictDisease_body. cbn zeta.
  unfold tryBlock, fetchWithTimeout. rewrite Hfetch.
  replace (ok response) with true; [reflexivity |].
  symmetry. unfold ok. apply andb_true_iff.
  split; apply N.leb_le; lia.
Qed.

(** X4: a request cut off by the timer (a rejection named AbortError) is
    reported with the timeout message, whatever the message of the abort;
    below [MAX_RETRIES] it is followed by the wait and the next attempt,
    and at [MAX_RETRIES] it is the rejection of the call. *)
Theorem abort_is_a_retried_timeout (file : File) (age : option Z)
  (lesionLocation : option string) (retryCount : nat) (error : Error) :
  let form := buildFormData file age lesionLocation in
  fetch retryCount form = Reject error ->
  name error = "AbortError" ->
  (retryCount < MAX_RETRIES ->
   predictDisease detail fetch file age lesionLocation retryCount
   = after [Fetch retryCount form; Sleep (backoff retryCount)]
       (predictDisease detail fetch file age lesionLocation (S retryCount)))
  /\
  (MAX_RETRIES <= retryCount ->
   predictDisease detail fetch file age lesionLocation retryCount
   = (Settles (Reject (newError TIMEOUT_MESSAGE)),
      [Fetch retryCount form])).
Proof.
  cbn zeta. intros Hfetch Hname.
  assert (Htry : tryBlock detail fetch retryCount
                   (buildFormData file age lesionLocation)
                 = Thrown (newError TIMEOUT_MESSAGE)).
  { unfold tryBlock, fetchWithTimeout. rewrite Hfetch, Hname. reflexivity. }
  split; intros Hr; rewrite predictDisease_body; cbn zeta; rewrite Htry.
  - replace (retryCount <? MAX_RETRIES)%nat with true
      by (symmetry; apply Nat.ltb_lt; lia).
    reflexivity.
  - replace (retryCount <? MAX_RETRIES)%nat with false
      by (symmetry; apply Nat.ltb_ge; lia).
    reflexivity.
Qed.

End ClientTraceFacts.

Lemma first_final_attempt_decides_witness :
  Api.predictDisease Samples.detail_of Scenarios.flaky Samples.good_file
    (Some 0%Z) (Some "Face") 0
  = (Settles (Resolve (Some None)),
     ApiTrace.schedule
       (Api.buildFormData Samples.good_file (Some 0%Z) (Some "Face")) 0 2).
Proof.
  apply (first_final_attempt_decides Samples.detail_of Scenarios.flaky
           Samples.good_file (Some 0%Z) (Some "Face") 2 0).
  - unfold Api.MAX_RETRIES. lia.
  - intros i Hi. destruct i as [| [| i]]; [reflexivity | reflexivity | lia].
  - left. reflexivity.
Defined.

Lemma ok_response_is_final_witness :
  Api.predictDisease Samples.detail_of Scenarios.garbled Samples.good_file
    None (Some "Face") 0
  = (Settles (Reject {| name := "SyntaxError";
                        message := "Unexpected token < in JSON, fetch aborted" |}),
     [Api.Fetch 0 (Api.buildFormData Samples.good_file None (Some "Face"))]).
Proof.
  apply (ok_response_is_final Samples.detail_of Scenarios.garbled
           Samples.good_file None (Some "Face") 0
           (Api.mkResponse 200
              (Settles
                 (Reject {| name := "SyntaxError";
                            message := "Unexpected token < in JSON, fetch aborted" |})))).
  - reflexivity.
  - cbn. lia.
Defined.

Lemma abort_is_a_retried_timeout_witness :
  Api.predictDisease Samples.detail_of Scenarios.stalled Samples.good_file
    None (Some "Face") 2
  = (Settles (Reject (newError Api.TIMEOUT_MESSAGE)),
     [Api.Fetch 2 (Api.buildFormData Samples.good_file None (Some "Face"))]).
Proof.
  apply (abort_is_a_retried_timeout Samples.detail_of Scenarios.stalled
           Samples.good_file None (Some "Face") 2
           {| name := "AbortError"; message := "The user aborted a request." |}).
  - reflexivity.
  - reflexivity.
  - unfold Api.MAX_RETRIES. lia.
Defined.

(** ** The page: when it sends, and what it shows afterwards *)
Section PredictFacts.

Import Api Home.

Context {Json : Type}.
Variable detail : Json -> option string.
Variable fetch : nat -> FormData -> Settled (@Response Json).

(** With an image and a location, [handlePredict] is one call of the
    client followed by the [finally] block. *)
Lemma handlePredict_ready (st : State) (image : File) :
  selectedImage st = Some image ->
  lesionLocation st <> "" ->
  handlePredict detail fetch st =
    let st1 := setPrediction None (setError None (setIsLoading true st)) in
    let call := predictDisease detail fetch image (age st)
                  (Some (lesionLocation st)) 0 in
    (match fst call with
     | Settles (Resolve r) => setIsLoading false (setPrediction r st1)
     | Settles (Reject err) =>
         setIsLoading false
           (setError (Some (orElse (Some (message err))
                              "An error occurred during prediction")) st1)
     | Pending => st1
     end, snd call).
Proof.
  intros Himg Hloc. unfold handlePredict. rewrite Himg.
  apply String.eqb_neq in Hloc. rewrite Hloc. cbn zeta.
  cbn [age lesionLocation setPrediction setError setIsLoading].
  destruct (predictDisease detail fetch image (age st)
              (Some (lesionLocation st)) 0) as [[[r | err] |] evs];
    reflexivity.
Qed.

(** X6: [handlePredict] sends a request exactly when an image is selected
    and the lesion location is not empty; so a click on the enabled
    Analyze button always sends one, and with no image the error is the
    missing-image one whatever the location. *)
Theorem handlePredict_sends_iff_ready (st : State) :
  (1 <= requests (snd (handlePredict detail fetch st)) <->
   selectedImage st <> None /\ lesionLocation st <> "") /\
  (App.predictDisabled st = false ->
   1 <= requests (snd (handlePredict detail fetch st))) /\
  (selectedImage st = None ->
   error (fst (handlePredict detail fetch st))
   = Some "Please upload an image first").
Proof.
  assert (Hiff : 1 <= requests (snd (handlePredict detail fetch st)) <->
                 selectedImage st <> None /\ lesionLocation st <> "").
  { split.
    - unfold handlePredict.
      destruct (selectedImage st) as [image |]; [| cbn; lia].
      destruct (lesionLocation st =? "") eqn:Hloc; [cbn; lia |].
      intros _. apply String.eqb_neq in Hloc. split; [discriminate | exact Hloc].
    - intros [Himg Hloc].
      destruct (selectedImage st) as [image |] eqn:Hsel; [| congruence].
      rewrite (handlePredict_ready st image Hsel Hloc). cbn zeta. cbn [snd].
      apply requests_bound. }
  split; [exact Hiff |]. split.
  - intros Hen. apply Hiff. unfold App.predictDisabled in Hen.
    destruct (selectedImage st); [| discriminate].
    apply orb_false_iff in Hen as [Hloc _]. apply String.eqb_neq in Hloc.
    split; [discriminate | exact Hloc].
  - intros Hnone. unfold handlePredict. rewrite Hnone. reflexivity.
Qed.

(** X7: after a predict that went out, the loading flag is off exactly
    when the call has settled.  A fulfilled call leaves no error and the
    body as the prediction (none when the body is null); a rejected call
    leaves no prediction and an error with a non-empty text; a call that
    never settles leaves the page loading with neither.  In no case does
    the page hold both a prediction and an error, and image, preview, age
    and location are as before. *)
Theorem handlePredict_settles (st : State) (image : File) :
  selectedImage st = Some image ->
  lesionLocation st <> "" ->
  let call := fst (predictDisease detail fetch image (age st)
                     (Some (lesionLocation st)) 0) in
  let st' := fst (handlePredict detail fetch st) in
  (isLoading st' = false <-> call <> Pending) /\
  (forall r, call = Settles (Resolve r) ->
     prediction st' = r /\ error st' = None) /\
  (forall err, call = Settles (Reject err) ->
     prediction st' = None /\
     exists msg, error st' = Some msg /\ msg <> "") /\
  (call = Pending ->
   isLoading st' = true /\ prediction st' = None /\ error st' = None) /\
  ~ (prediction st' <> None /\ error st' <> None) /\
  selectedImage st' = selectedImage st /\
  imagePreview st' = imagePreview st /\
  age st' = age st /\
  lesionLocation st' = lesionLocation st.
Proof.
  intros Himg Hloc. cbn zeta.
  rewrite (handlePredict_ready st image Himg Hloc). cbn zeta. cbn [fst].
  destruct (fst (predictDisease detail fetch image (age st)
                   (Some (lesionLocation st)) 0)) as [[r | err] |]; cbn.
  - split; [split; [discriminate | reflexivity] |].
    split; [intros r' [= <-]; auto |].
    split; [discriminate |]. split; [discriminate |].
    split; [intros [_ H]; congruence | auto].
  - split; [split; [discriminate | reflexivity] |].
    split; [discriminate |].
    split.
    + intros err' [= <-]. split; [reflexivity |].
      eexists. split; [reflexivity |].
      destruct (message err =? "") eqn:Hm;
        [discriminate | apply String.eqb_neq; exact Hm].
    + split; [discriminate |].
      split; [intros [H _]; congruence | auto].
  - split; [split; [discriminate | congruence] |].
    split; [discriminate |]. split; [discriminate |].
    split; [auto |].
    split; [intros [H _]; congruence | auto].
Qed.

(** [handleReset] puts every cell but the loading flag back to its
    initial value; a predict click after it sends nothing. *)
Lemma handleReset_restores_initial (st : State) :
  handleReset st = setIsLoading (isLoading st) initial /\
  snd (handlePredict detail fetch (handleReset st)) = [].
Proof. split; reflexivity. Qed.

End PredictFacts.

Lemma handlePredict_settles_witness :
  let st := Home.setLesionLocation "Back" Samples.image_only in
  let st' :=
    fst (Home.handlePredict Samples.detail_of Scenarios.empty_handed st) in
  Home.isLoading st' = false /\
  Home.prediction st' = None /\
  Home.error st' = None.
Proof.
  cbn zeta.
  destruct (handlePredict_settles Samples.detail_of Scenarios.empty_handed
              (Home.setLesionLocation "Back" Samples.image_only)
              Samples.good_file)
    as (Hload & Hfulfilled & _); [reflexivity | discriminate |].
  split; [apply Hload; discriminate |].
  apply (Hfulfilled None). reflexivity.
Defined.

(** ** The application: what reaches the server *)
Section AppFacts.

Import Api Home UploadHandlers App.

Context {Json : Type}.
Variable detail : Json -> option string.
Variable fetch : nat -> FormData -> Settled (@Response Json).

(** A file passes [handleFile] only if it passes the three checks, and
    then it is the one handed to [onImageSelect]. *)
Lemma handleFile_effects (file : File) (st : ImageUpload.UploadState) :
  (acceptable file = true /\
   snd (ImageUpload.handleFile file st)
   = [ImageUpload.ReadAsDataURL file; ImageUpload.OnImageSelect (Some file)])
  \/
  (acceptable file = false /\
   exists msg, snd (ImageUpload.handleFile file st) = [ImageUpload.Alert msg]).
Proof.
  unfold ImageUpload.handleFile, acceptable.
  destruct (startsWith (type file) "image/"); cbn [negb andb];
    [| right; split; [reflexivity | eexists; reflexivity]].
  rewrite N.leb_antisym.
  destruct (ImageUpload.MAX_FILE_SIZE <? size file)%N; cbn [negb andb];
    [right; split; [reflexivity | eexists; reflexivity] |].
  destruct (image file) as [[w h] |] eqn:Himg.
  - rewrite (validateImageQuality_loaded file w h Himg).
    rewrite !N.leb_antisym.
    destruct (w <? 100)%N; cbn [orb negb andb];
      [right; split; [reflexivity | eexists; reflexivity] |].
    destruct (h <? 100)%N; cbn [negb];
      [right; split; [reflexivity | eexists; reflexivity] |].
    left. split; reflexivity.
  - unfold ImageUpload.validateImageQuality. rewrite Himg.
    right. split; [reflexivity | eexists; reflexivity].
Qed.

Lemma fit_initial : fit (@initial Json).
Proof.
  split; [discriminate |]. split; [discriminate | left; reflexivity].
Qed.

Lemma fit_select (p : @State Json) (file : option File) :
  fit p ->
  (forall f, file = Some f -> acceptable f = true) ->
  fit (handleImageSelect file p).
Proof.
  intros (Himg & Hage & Hloc) Hfile.
  destruct file as [f |]; (split; [| split; [exact Hage | exact Hloc]]).
  - intros f' [= <-]. apply Hfile. reflexivity.
  - discriminate.
Qed.

Lemma fit_upload (p : @State Json) (u : ImageUpload.UploadState) (ev : UploadEvent) :
  fit p -> fit (fold_left notify (snd (uploadStep u ev)) p).
Proof.
  intros Hfit.
  assert (Hfile : forall file st,
            fit (fold_left notify (snd (ImageUpload.handleFile file st)) p)).
  { intros file st.
    destruct (handleFile_effects file st) as [[Hok ->] | [_ [msg ->]]];
      [| exact Hfit].
    cbn [fold_left notify].
    apply (fit_select p (Some file)); [exact Hfit |].
    intros f [= <-]. exact Hok. }
  destruct ev as [| | files | files | result |];
    cbn [uploadStep handleDrop handleFileInput ImageUpload.clearImage snd
         fold_left notify];
    try exact Hfit.
  - destruct files as [| file files]; [exact Hfit | apply Hfile].
  - destruct files as [[| file files] |]; try exact Hfit. apply Hfile.
  - apply (fit_select p None); [exact Hfit | discriminate].
Qed.

Lemma handlePredict_keeps (p : @State Json) :
  selectedImage (fst (handlePredict detail fetch p)) = selectedImage p /\
  age (fst (handlePredict detail fetch p)) = age p /\
  lesionLocation (fst (handlePredict detail fetch p)) = lesionLocation p.
Proof.
  unfold handlePredict.
  destruct (selectedImage p) as [image |] eqn:Himg;
    [| cbn; rewrite Himg; auto].
  destruct (lesionLocation p =? ""); [cbn; rewrite Himg; auto |].
  destruct (predictDisease _ _ _ _ _ _) as [[[r | err] |] evs];
    cbn; rewrite Himg; auto.
Qed.

Lemma fit_page (p : @State Json) (ev : UserEvent) :
  (forall file, ev <> ImageSelected file) ->
  fit p -> fit (fst (Home.step detail fetch p ev)).
Proof.
  intros Hev (Himg & Hage & Hloc).
  destruct ev as [file | result | value | choice | |]; cbn [Home.step fst].
  - destruct (Hev file). reflexivity.
  - split; [exact Himg | split; [exact Hage | exact Hloc]].
  - split; [exact Himg | split; [| exact Hloc]].
    cbn. intros a. apply storedAge_in_range. exact Hage.
  - split; [exact Himg | split; [exact Hage |]].
    apply selectedValue_option.
  - destruct (handlePredict_keeps p) as (H1 & H2 & H3).
    split; [| split].
    + rewrite H1. exact Himg.
    + rewrite H2. exact Hage.
    + rewrite H3. exact Hloc.
  - split; [discriminate |]. split; [discriminate | left; reflexivity].
Qed.

Lemma handlePredict_forms (p : @State Json) (k : nat) (body : FormData) :
  In (Fetch k body) (snd (handlePredict detail fetch p)) ->
  exists image,
    selectedImage p = Some image /\
    lesionLocation p <> "" /\
    body = buildFormData image (age p) (Some (lesionLocation p)).
Proof.
  intros Hin.
  destruct (selectedImage p) as [image |] eqn:Himg;
    [| unfold handlePredict in Hin; rewrite Himg in Hin; destruct Hin].
  destruct (String.eqb_spec (lesionLocation p) "") as [Hloc | Hloc];
    [unfold handlePredict in Hin; rewrite Himg, Hloc in Hin; destruct Hin |].
  rewrite (handlePredict_ready detail fetch p image Himg Hloc) in Hin.
  cbn zeta in Hin. cbn [snd] in Hin.
  apply predictDisease_forms in Hin.
  exists image. auto.
Qed.

Lemma step_requests (st : @AppState Json) (ev : AppEvent) (k : nat)
  (body : FormData) :
  In (Fetch k body) (snd (App.step detail fetch st ev)) ->
  In (Fetch k body) (snd (handlePredict detail fetch (page st))).
Proof.
  destruct ev as [uev | result | value | choice | |]; cbn;
    try (intros []).
  - destruct (uploadStep (upload st) uev). intros [].
  - destruct (handlePredict detail fetch (page st)). cbn. auto.
Qed.

Lemma fit_step (st : @AppState Json) (ev : AppEvent) :
  fit (page st) -> fit (page (fst (App.step detail fetch st ev))).
Proof.
  intros Hfit. destruct ev as [uev | result | value | choice | |].
  - cbn [App.step].
    pose proof (fit_upload (page st) (upload st) uev Hfit) as Hnext.
    destruct (uploadStep (upload st) uev) as [u effects]. exact Hnext.
  - exact Hfit.
  - apply (fit_page (page st) (Home.AgeTyped value)); [discriminate | exact Hfit].
  - apply (fit_page (page st) (Home.LocationPicked choice));
      [discriminate | exact Hfit].
  - cbn [App.step pageEvent].
    pose proof (fit_page (page st) Home.PredictClicked
                  ltac:(discriminate) Hfit) as Hnext.
    destruct (Home.step detail fetch (page st) Home.PredictClicked). exact Hnext.
  - apply (fit_page (page st) Home.ResetClicked); [discriminate | exact Hfit].
Qed.

Lemma session_requests_fit (evs : list AppEvent) (st : @AppState Json) (k : nat)
  (body : FormData) :
  fit (page st) ->
  In (Fetch k body) (snd (App.session detail fetch st evs)) ->
  exists (p : @State Json) image, fit p /\ selectedImage p = Some image /\
    lesionLocation p <> "" /\
    body = buildFormData image (age p) (Some (lesionLocation p)).
Proof.
  revert st. induction evs as [| ev evs IH]; intros st Hfit; [intros [] |].
  cbn [App.session].
  pose proof (fit_step st ev Hfit) as Hnext.
  pose proof (step_requests st ev k body) as Hreq.
  destruct (App.step detail fetch st ev) as [st1 out1].
  destruct (App.session detail fetch st1 evs) as [st2 out2] eqn:Hrun.
  cbn [fst snd] in *. intros Hin. apply in_app_or in Hin as [Hin | Hin].
  - apply Hreq, handlePredict_forms in Hin as (image & H1 & H2 & H3).
    exists (page st), image. auto.
  - apply (IH st1 Hnext). rewrite Hrun. exact Hin.
Qed.

(** X8: whatever the user does (drops, file inputs, clears, age entries,
    location picks, predict and reset clicks, from the initial state),
    every request the application sends carries a file that passed the
    three checks of [handleFile] (image type, at most 10MB, at least
    100x100), an age that is absent or the numeral of an integer within
    0..150, and one of the ten lesion locations. *)
Theorem app_requests_meet_contract (evs : list AppEvent) (k : nat)
  (body : FormData) :
  In (Fetch k body) (snd (App.session detail fetch App.start evs)) ->
  acceptable (form_file body) = true /\
  (form_age body = None \/
   exists a, (0 <= a <= 150)%Z /\ form_age body = Some (toString a)) /\
  (exists l, form_lesion_location body = Some l /\
             In l Types.LESION_LOCATIONS).
Proof.
  intros Hin.
  apply session_requests_fit in Hin; [| exact fit_initial].
  destruct Hin as (p & image & (Himg & Hage & Hloc) & Hsel & Hne & ->).
  cbn [buildFormData form_file form_age form_lesion_location].
  split; [apply Himg; exact Hsel |]. split.
  - destruct (age p) as [a |]; [right | left; reflexivity].
    exists a. split; [apply Hage; reflexivity | reflexivity].
  - exists (lesionLocation p).
    apply String.eqb_neq in Hne. rewrite Hne. split; [reflexivity |].
    destruct Hloc as [Hempty | Hin]; [| exact Hin].
    apply String.eqb_neq in Hne. congruence.
Qed.

End AppFacts.

Lemma app_requests_meet_contract_witness :
  UploadHandlers.acceptable Samples.good_file = true /\
  (exists l, Some "Back" = Some l /\ In l Types.LESION_LOCATIONS).
Proof.
  destruct (app_requests_meet_contract Samples.detail_of Samples.healthy
              [App.Upload (UploadHandlers.Drop [Samples.good_file]);
               App.AgeTyped "0"; App.LocationPicked 3; App.PredictClicked]
              0
              (Api.buildFormData Samples.good_file (Some 0%Z) (Some "Back")))
    as (Hfile & _ & Hloc).
  - left. reflexivity.
  - split; [exact Hfile | exact Hloc].
Defined.

(** ** Numerals typed into the age field *)
Section NumeralFacts.

Import PatientMetadata Scenarios.

Lemma digitValue_not_decimal (c : ascii) :
  isDecimalDigit c = false ->
  match digitValue c with Some d => (d <? 10)%N = false | None => True end.
Proof.
  unfold isDecimalDigit, digitValue. cbn zeta. intros ->.
  destruct ((97 <=? N_of_ascii c) && (N_of_ascii c <=? 122))%N eqn:H1.
  - apply andb_true_iff in H1 as [H1 _]. apply N.leb_le in H1.
    apply N.ltb_ge. lia.
  - destruct ((65 <=? N_of_ascii c) && (N_of_ascii c <=? 90))%N eqn:H2; [| exact I].
    apply andb_true_iff in H2 as [H2 _]. apply N.leb_le in H2.
    apply N.ltb_ge. lia.
Qed.

Lemma radixDigits_stop (rest : string) (acc : option N) :
  firstIs isDecimalDigit rest = false -> radixDigits 10 rest acc = acc.
Proof.
  destruct rest as [| c r]; [reflexivity |]. cbn [firstIs radixDigits].
  intros Hc. pose proof (digitValue_not_decimal c Hc) as Hd.
  destruct (digitValue c) as [d |]; [| reflexivity]. rewrite Hd. reflexivity.
Qed.

Ltac read_digit :=
  cbn [NilEmpty.string_of_uint append radixDigits];
  match goal with
  | |- context [digitValue ?c] =>
      let v := eval vm_compute in (digitValue c) in
      change (digitValue c) with v
  end;
  cbv iota beta;
  match goal with
  | |- context [(?d <? 10)%N] => change (d <? 10)%N with true
  end;
  cbv iota.

Lemma radixDigits_numeral (d : Decimal.uint) (rest : string) :
  firstIs isDecimalDigit rest = false ->
  forall p,
  radixDigits 10 (NilEmpty.string_of_uint d ++ rest) (Some (N.pos p))
  = Some (N.pos (Pos.of_uint_acc d p)).
Proof.
  intros Hrest.
  induction d as [| d IH | d IH | d IH | d IH | d IH | d IH | d IH | d IH
                  | d IH | d IH];
    intros p; [apply radixDigits_stop; exact Hrest | read_digit ..].
  - replace (10 * N.pos p + 0)%N with (N.pos (10 * p)) by lia.
    exact (IH (10 * p)%positive).
  - replace (10 * N.pos p + 1)%N with (N.pos (1 + 10 * p)) by lia.
    exact (IH (1 + 10 * p)%positive).
  - replace (10 * N.pos p + 2)%N with (N.pos (2 + 10 * p)) by lia.
    exact (IH (2 + 10 * p)%positive).
  - replace (10 * N.pos p + 3)%N with (N.pos (3 + 10 * p)) by lia.
    exact (IH (3 + 10 * p)%positive).
  - replace (10 * N.pos p + 4)%N with (N.pos (4 + 10 * p)) by lia.
    exact (IH (4 + 10 * p)%positive).
  - replace (10 * N.pos p + 5)%N with (N.pos (5 + 10 * p)) by lia.
    exact (IH (5 + 10 * p)%positive).
  - replace (10 * N.pos p + 6)%N with (N.pos (6 + 10 * p)) by lia.
    exact (IH (6 + 10 * p)%positive).
  - replace (10 * N.pos p + 7)%N with (N.pos (7 + 10 * p)) by lia.
    exact (IH (7 + 10 * p)%positive).
  - replace (10 * N.pos p + 8)%N with (N.pos (8 + 10 * p)) by lia.
    exact (IH (8 + 10 * p)%positive).
  - replace (10 * N.pos p + 9)%N with (N.pos (9 + 10 * p)) by lia.
    exact (IH (9 + 10 * p)%positive).
Qed.

(** After leading zeros, or from the start. *)
Lemma radixDigits_numeral_zero (d : Decimal.uint) (rest : string) :
  firstIs isDecimalDigit rest = false ->
  radixDigits 10 (NilEmpty.string_of_uint d ++ rest) (Some 0%N)
  = Some (Pos.of_uint d).
Proof.
  intros Hrest.
  induction d as [| d IH | d IH | d IH | d IH | d IH | d IH | d IH | d IH
                  | d IH | d IH];
    [apply radixDigits_stop; exact Hrest | read_digit ..];
    cbn [N.mul N.add Pos.of_uint];
    first [exact IH | exact (radixDigits_numeral d rest Hrest _)].
Qed.

Lemma radixDigits_numeral_start (d : Decimal.uint) (rest : string) :
  firstIs isDecimalDigit rest = false ->
  d <> Decimal.Nil ->
  radixDigits 10 (NilEmpty.string_of_uint d ++ rest) None
  = Some (Pos.of_uint d).
Proof.
  intros Hrest Hd.
  destruct d; [congruence | read_digit ..];
    cbn [N.mul N.add Pos.of_uint];
    first [exact (radixDigits_numeral_zero d rest Hrest)
          | exact (radixDigits_numeral d rest Hrest _)].
Qed.

Lemma parseInt_unsigned (d : Decimal.uint) (rest : string) :
  firstIs isDecimalDigit rest = false ->
  d <> Decimal.Nil ->
  (d = Decimal.D0 Decimal.Nil -> firstIs isHexMark rest = false) ->
  parseInt (NilEmpty.string_of_uint d ++ rest)
  = Some (Z.of_N (Pos.of_uint d)) /\
  parseInt (String "-" (NilEmpty.string_of_uint d ++ rest))
  = Some (- Z.of_N (Pos.of_uint d))%Z.
Proof.
  intros Hrest Hd Hhex.
  pose proof (radixDigits_numeral_start d rest Hrest Hd) as Hread.
  destruct d as [| l | l | l | l | l | l | l | l | l | l]; [congruence | ..].
  2-10: (unfold parseInt;
         cbn [NilEmpty.string_of_uint append trimStart] in *;
         cbn -[radixDigits Z.mul Z.of_N Pos.of_uint]; rewrite Hread; split; f_equal; lia).
  destruct l as [| l | l | l | l | l | l | l | l | l | l].
  2-11: (unfold parseInt;
         cbn [NilEmpty.string_of_uint append trimStart] in *;
         cbn -[radixDigits Z.mul Z.of_N Pos.of_uint]; rewrite Hread; split; f_equal; lia).
  specialize (Hhex eq_refl).
  destruct rest as [| c r]; [split; reflexivity |].
  cbn [firstIs] in Hrest, Hhex. clear Hread Hd.
  destruct c as [[] [] [] [] [] [] [] []];
    try discriminate Hrest; try discriminate Hhex; split; reflexivity.
Qed.

Lemma string_of_uint_nonnil (d : Decimal.uint) :
  d <> Decimal.Nil ->
  NilZero.string_of_uint d = NilEmpty.string_of_uint d.
Proof. destruct d; [congruence | reflexivity ..]. Qed.

(** The integer read from a numeral, before the builtin rounds it to a
    Number. *)
Lemma parseInt_numeral (n : Z) (rest : string) :
  firstIs isDecimalDigit rest = false ->
  (n = 0%Z -> firstIs isHexMark rest = false) ->
  parseInt (toString n ++ rest) = Some n.
Proof.
  intros Hrest Hhex. unfold toString.
  destruct n as [| p | p]; cbn [Z.to_int NilZero.string_of_int].
  - apply (parseInt_unsigned (Decimal.D0 Decimal.Nil) rest Hrest);
      [discriminate | intros _; apply Hhex; reflexivity].
  - pose proof (Unsigned.to_uint_nonnil p) as Hnil.
    rewrite (string_of_uint_nonnil _ Hnil).
    destruct (parseInt_unsigned (Pos.to_uint p) rest Hrest Hnil) as [Hpos _].
    + intros Hz. destruct (Unsigned.to_uint_nonzero p). exact Hz.
    + rewrite Hpos, Unsigned.of_to. reflexivity.
  - pose proof (Unsigned.to_uint_nonnil p) as Hnil.
    rewrite (string_of_uint_nonnil _ Hnil).
    destruct (parseInt_unsigned (Pos.to_uint p) rest Hrest Hnil) as [_ Hneg].
    + intros Hz. destruct (Unsigned.to_uint_nonzero p). exact Hz.
    + cbn [append]. rewrite Hneg, Unsigned.of_to. reflexivity.
Qed.

Lemma toString_nonempty (n : Z) (rest : string) : toString n ++ rest <> "".
Proof.
  unfold toString.
  destruct n as [| p | p]; cbn [Z.to_int NilZero.string_of_int];
    try discriminate.
  pose proof (Unsigned.to_uint_nonnil p) as Hnil.
  rewrite (string_of_uint_nonnil _ Hnil).
  destruct (Pos.to_uint p); [congruence | discriminate ..].
Qed.

(** The hexadecimal prefix is why 0 is special. *)
Example parseInt_hex_prefix : parseInt (toString 0 ++ "x1F") = Some 31%Z.
Proof. reflexivity. Qed.

(** X10: an entry that starts with the numeral of an integer [n] (alone,
    or followed by text that does not continue the numeral) stores [n]
    when 0 <= n <= 150 and leaves the stored age as it was otherwise:
    out-of-range and negative integers are never stored or clamped, and
    a decimal fraction is cut to its integer part. *)
Theorem handleAgeChange_numeral (n : Z) (rest : string) (age : option Z) :
  firstIs isDecimalDigit rest = false ->
  (n = 0%Z -> firstIs isHexMark rest = false) ->
  storedAge age (handleAgeChange (toString n ++ rest))
  = if ((0 <=? n) && (n <=? 150))%Z then Some n else age.
Proof.
  intros Hrest Hhex. rewrite storedAge_handleAgeChange.
  pose proof (toString_nonempty n rest) as Hne.
  apply String.eqb_neq in Hne. rewrite Hne.
  rewrite (parseInt_numeral n rest Hrest Hhex).
  rewrite Z.geb_leb. reflexivity.
Qed.

End NumeralFacts.

Lemma handleAgeChange_numeral_witness :
  PatientMetadata.storedAge (Some 30%Z)
    (PatientMetadata.handleAgeChange "1000") = Some 30%Z /\
  PatientMetadata.storedAge (Some 30%Z)
    (PatientMetadata.handleAgeChange "-5") = Some 30%Z /\
  PatientMetadata.storedAge (Some 30%Z)
    (PatientMetadata.handleAgeChange "37.5") = Some 37%Z.
Proof.
  split; [| split].
  - apply (handleAgeChange_numeral 1000 "" (Some 30%Z));
      [reflexivity | discriminate].
  - apply (handleAgeChange_numeral (-5) "" (Some 30%Z));
      [reflexivity | discriminate].
  - apply (handleAgeChange_numeral 37 ".5" (Some 30%Z));
      [reflexivity | discriminate].
Defined.

(** ** The report *)
Section ReportFacts.

Import Report.
Local Open Scope Q_scope.

Lemma toString_not_N (n : Z) (s t : string) :
  (toString n ++ s)%string <> String "N" t.
Proof.
  unfold toString.
  destruct n as [| p | p]; cbn [Z.to_int NilZero.string_of_int];
    try discriminate.
  pose proof (Unsigned.to_uint_nonnil p) as Hnil.
  rewrite (string_of_uint_nonnil _ Hnil).
  destruct (Pos.to_uint p); [congruence | discriminate ..].
Qed.

(** X11: the report prints the age as not provided exactly when the age
    is absent or 0; so the age 0, which the age field accepts and the
    form sends, is reported as missing.  Every other age is printed as
    its numeral followed by years. *)
Theorem ageLine_not_provided (patientAge : option Z) :
  (ageLine patientAge = "Age: Not provided"%string <->
   patientAge = None \/ patientAge = Some 0%Z) /\
  (forall age,
     ageLine (PatientMetadata.storedAge age
                (PatientMetadata.handleAgeChange (toString 0)))
     = "Age: Not provided"%string) /\
  (forall n, patientAge = Some n -> n <> 0%Z ->
     ageLine patientAge = ("Age: " ++ toString n ++ " years")%string).
Proof.
  split; [| split].
  - split.
    + destruct patientAge as [n |]; [| auto].
      destruct (Z.eqb_spec n 0) as [-> | Hn]; [auto |].
      unfold ageLine. apply Z.eqb_neq in Hn. rewrite Hn.
      intros [= H]. destruct (toString_not_N n _ _ H).
    + intros [-> | ->]; reflexivity.
  - intros age. reflexivity.
  - intros n -> Hn. unfold ageLine. apply Z.eqb_neq in Hn. rewrite Hn.
    reflexivity.
Qed.

(** X12: for the four levels of [TriageInfo], the header colour of the
    triage section is red for CRITICAL, amber for HIGH and the grey
    fallback for both MEDIUM and LOW: the table's third key, MODERATE, is
    none of the levels, so its blue is never used. *)
Theorem triageColor_levels :
  triageColor "CRITICAL" = (220, 38, 38)%N /\
  triageColor "HIGH" = (245, 158, 11)%N /\
  (forall level,
     In level TRIAGE_LEVELS -> level <> "CRITICAL"%string ->
     level <> "HIGH"%string -> triageColor level = (100, 100, 100)%N) /\
  (forall level,
     In level TRIAGE_LEVELS -> triageColor level <> (59, 130, 246)%N).
Proof.
  split; [reflexivity |]. split; [reflexivity |]. split.
  - intros level [<- | [<- | [<- | [<- | []]]]] H1 H2;
      solve [reflexivity | congruence].
  - intros level [<- | [<- | [<- | [<- | []]]]]; discriminate.
Qed.

Lemma insertEntry_perm (x : string * Q) (l : list (string * Q)) :
  Permutation (insertEntry x l) (x :: l).
Proof.
  induction l as [| y l IH]; cbn [insertEntry]; [reflexivity |].
  destruct (Qle_bool (snd y) (snd x)); [reflexivity |].
  rewrite IH. apply perm_swap.
Qed.

Lemma insertEntry_hd (x y : string * Q) (l : list (string * Q)) :
  snd x <= snd y ->
  HdRel (fun a b => snd b <= snd a) y l ->
  HdRel (fun a b => snd b <= snd a) y (insertEntry x l).
Proof.
  intros Hxy Hhd. destruct l as [| z l]; cbn [insertEntry].
  - constructor. exact Hxy.
  - destruct (Qle_bool (snd z) (snd x)); constructor; [exact Hxy |].
    inversion Hhd; assumption.
Qed.

Lemma insertEntry_sorted (x : string * Q) (l : list (string * Q)) :
  Sorted (fun a b => snd b <= snd a) l ->
  Sorted (fun a b => snd b <= snd a) (insertEntry x l).
Proof.
  induction 1 as [| y l Hsorted IH Hhd]; cbn [insertEntry].
  - repeat constructor.
  - destruct (Qle_bool (snd y) (snd x)) eqn:Hle.
    + apply Qle_bool_iff in Hle. repeat constructor; assumption.
    + constructor; [exact IH |].
      apply insertEntry_hd; [| exact Hhd].
      destruct (Qlt_le_dec (snd x) (snd y)) as [Hlt | Hge];
        [apply Qlt_le_weak; exact Hlt |].
      apply Qle_bool_iff in Hge. congruence.
Qed.

Lemma insertEntry_filter (q : Q) (x : string * Q) (l : list (string * Q)) :
  filter (fun e => Qeq_bool (snd e) q) (insertEntry x l)
  = filter (fun e => Qeq_bool (snd e) q) (x :: l).
Proof.
  induction l as [| y l IH]; cbn [insertEntry]; [reflexivity |].
  destruct (Qle_bool (snd y) (snd x)) eqn:Hle; [reflexivity |].
  cbn [filter] in *. rewrite IH.
  destruct (Qeq_bool (snd y) q) eqn:Hy; [| reflexivity].
  destruct (Qeq_bool (snd x) q) eqn:Hx; [| reflexivity].
  apply Qeq_bool_iff in Hy, Hx.
  assert (Hcontra : Qle_bool (snd y) (snd x) = true)
    by (apply Qle_bool_iff; rewrite Hy, Hx; apply Qle_refl).
  congruence.
Qed.

(** X13: the probability list of the report and of the details card is
    a rearrangement of the response's entries (none lost, none added), in
    non-increasing order of probability, and entries with equal
    probabilities keep the order they have in the response. *)
Theorem sortedProbs_sorted (entries : list (string * Q)) :
  Permutation (sortedProbs entries) entries /\
  Sorted (fun a b => snd b <= snd a) (sortedProbs entries) /\
  (forall q,
     filter (fun e => Qeq_bool (snd e) q) (sortedProbs entries)
     = filter (fun e => Qeq_bool (snd e) q) entries).
Proof.
  induction entries as [| x l (Hperm & Hsorted & Hstable)];
    cbn [sortedProbs fold_right].
  - repeat split; constructor.
  - fold (sortedProbs l). split; [| split].
    + rewrite insertEntry_perm. constructor. exact Hperm.
    + apply insertEntry_sorted. exact Hsorted.
    + intros q. rewrite insertEntry_filter. cbn [filter].
      rewrite Hstable. reflexivity.
Qed.

End ReportFacts.
